(** * Partition sets of the GraphQL schema layer (dagster_graphql/schema/partition_sets.py)

    A shallow embedding of the resolvers of [partition_sets.py] and of the
    partition engine they present, followed by the properties proved about
    them.

    Part I holds the model.  Python objects are records, [Optional] values are
    [option]s, dicts are [gmap]s, raised exceptions are the [Err] case of
    [result], and the one method that mutates [self] runs in a small state and
    exception monad.  Part II holds the theorems. *)

From stdpp Require Import gmap strings list fin_maps.

Local Open Scope string_scope.

(* ===================================================================== *)
(** * Part I: the model                                                   *)
(* ===================================================================== *)

(** ** Python values and control flow *)

(** A call either returns a value or raises. *)
Inductive result (E A : Type) : Type :=
| Ok (a : A)
| Err (e : E).
Arguments Ok {E A} a.
Arguments Err {E A} e.

(** Sequencing: [x ← r; k] runs [k] on the value of [r], or raises what [r]
    raised. *)
#[global] Instance result_bind {E} : MBind (result E) := λ A B k r,
  match r with
  | Ok a => k a
  | Err e => Err e
  end.

(** A list comprehension whose element expression may raise: the first
    exception ends the comprehension. *)
Fixpoint comprehension {E A B} (f : A → result E B) (xs : list A) : result E (list B) :=
  match xs with
  | [] => Ok []
  | x :: rest =>
      y ← f x;
      ys ← comprehension f rest;
      Ok (y :: ys)
  end.

(** [xs[:stop]].  [None] keeps everything; a negative stop counts from the
    end of the list and is clamped at the start. *)
Definition slice_to {A} (xs : list A) (stop : option Z) : list A :=
  match stop with
  | None => xs
  | Some n =>
      if bool_decide (0 ≤ n)%Z then take (Z.to_nat n) xs
      else take (length xs - Z.to_nat (- n)) xs
  end.

(** Exceptions raised by the code of this file. *)
Inductive PyError : Type :=
| CheckError (msg : string)                        (* dagster._check.failed *)
| DagsterUserCodeProcessError (error_info : string).

(** ** Result unions of the dynamic-partition mutations *)

(** The object types of the two mutation result unions, and the error types
    the file imports from [.errors]. *)
Inductive GrapheneObjectType : Type :=
| GrapheneAddDynamicPartitionSuccess
| GrapheneDeleteDynamicPartitionsSuccess
| GrapheneUnauthorizedError
| GraphenePythonError
| GrapheneDuplicateDynamicPartitionError
| GraphenePartitionSetNotFoundError
| GraphenePipelineNotFoundError.

#[global] Instance GrapheneObjectType_eq_dec : EqDecision GrapheneObjectType.
Proof. solve_decision. Defined.

(** A [graphene.Union]: its [Meta.name] and [Meta.types]. *)
Record GrapheneUnion : Type := mkUnion {
  union_name : string;
  union_types : list GrapheneObjectType;
}.

Definition GrapheneAddDynamicPartitionResult : GrapheneUnion :=
  mkUnion "AddDynamicPartitionResult"
    [ GrapheneAddDynamicPartitionSuccess;
      GrapheneUnauthorizedError;
      GraphenePythonError;
      GrapheneDuplicateDynamicPartitionError ].

Definition GrapheneDeleteDynamicPartitionsResult : GrapheneUnion :=
  mkUnion "DeleteDynamicPartitionsResult"
    [ GrapheneDeleteDynamicPartitionsSuccess;
      GrapheneUnauthorizedError;
      GraphenePythonError ].

(** How a member of a result union reads to a client. *)
Inductive VariantRole : Type :=
| SuccessVariant          (* the operation's payload *)
| PermissionFailure       (* the caller may not run the operation *)
| GenericFailure          (* any Python exception, wrapped as PythonError *)
| DedicatedFailure.       (* an error type of its own for one failure cause *)

Definition variant_role (t : GrapheneObjectType) : VariantRole :=
  match t with
  | GrapheneUnauthorizedError => PermissionFailure
  | GraphenePythonError => GenericFailure
  | GrapheneDuplicateDynamicPartitionError
  | GraphenePartitionSetNotFoundError
  | GraphenePipelineNotFoundError => DedicatedFailure
  | GrapheneAddDynamicPartitionSuccess
  | GrapheneDeleteDynamicPartitionsSuccess => SuccessVariant
  end.

#[global] Instance VariantRole_eq_dec : EqDecision VariantRole.
Proof. solve_decision. Defined.

(** The members of a union that are an error type of their own. *)
Definition dedicated_failures (u : GrapheneUnion) : list GrapheneObjectType :=
  filter (λ t, variant_role t = DedicatedFailure) (union_types u).

(** ** The dynamic-partition registry *)

Module DynamicPartitionRegistry.

(** Modelled from the spec: the registry ([addKeys], [deleteKeys],
    [listKeys] of section 4.2) and its state (section 3) are implemented
    outside this file, which only declares the result types of the two
    mutations.  The state maps a definition name to its keys in insertion
    order; a name that was never written to has no keys. *)
Abbreviation DynamicPartitionsState := (gmap string (list string)).

Inductive RegistryError : Type :=
| DuplicateKeyError (defName : string) (keys : list string)
| KeyNotFoundError (defName : string) (keys : list string).

Definition listKeys (st : DynamicPartitionsState) (defName : string) : list string :=
  default [] (st !! defName).

(** Modelled from the spec: [addKeys] commits the keys, or fails with
    [DuplicateKeyError] listing the subset already present; a call is
    applied fully or not at all.  Keys repeated within one call are
    committed once, so that [listKeys] holds every added key exactly once. *)
Definition addKeys (st : DynamicPartitionsState) (defName : string) (keys : list string)
  : result RegistryError (list string * DynamicPartitionsState) :=
  match filter (λ k, k ∈ listKeys st defName) keys with
  | [] =>
      let committed := remove_dups keys in
      Ok (committed, <[defName := (listKeys st defName ++ committed)%list]> st)
  | present => Err (DuplicateKeyError defName present)
  end.


End DynamicPartitionRegistry.

(** ** Partition definitions *)

(** The serialised partition definitions ([ExternalPartitionsDefinitionData]
    and its subclasses).  The last constructor stands for an instance of any
    other subclass of the base class: [check.inst_param] lets it through and
    no [isinstance] test below recognises it. *)
Inductive ExternalPartitionsDefinitionData : Type :=
| ExternalStaticPartitionsDefinitionData (partition_keys : list string)
| ExternalTimeWindowPartitionsDefinitionData
    (start : Z) (cron_schedule : string) (timezone : string) (end_ : option Z)
| ExternalMultiPartitionsDefinitionData
    (external_partition_dimension_definitions : list ExternalPartitionDimensionDefinition)
| ExternalDynamicPartitionsDefinitionData (name : string)
| ExternalOtherPartitionsDefinitionData (class_name : string)
with ExternalPartitionDimensionDefinition : Type :=
| mkDimension (name : string) (external_partitions_def_data : ExternalPartitionsDefinitionData).

Definition dim_name (dim : ExternalPartitionDimensionDefinition) : string :=
  match dim with mkDimension name _ => name end.

Definition external_partitions_def_data (dim : ExternalPartitionDimensionDefinition)
  : ExternalPartitionsDefinitionData :=
  match dim with mkDimension _ data => data end.

Inductive GraphenePartitionDefinitionType : Type :=
| TIME_WINDOW
| STATIC
| MULTIPARTITIONED
| DYNAMIC.

#[global] Instance GraphenePartitionDefinitionType_eq_dec :
  EqDecision GraphenePartitionDefinitionType.
Proof. solve_decision. Defined.

(** [GraphenePartitionDefinitionType.from_partition_def_data]: the chain of
    [isinstance] tests, and [check.failed] in the last branch. *)
Definition from_partition_def_data (partition_def_data : ExternalPartitionsDefinitionData)
  : result PyError GraphenePartitionDefinitionType :=
  match partition_def_data with
  | ExternalStaticPartitionsDefinitionData _ => Ok STATIC
  | ExternalTimeWindowPartitionsDefinitionData _ _ _ _ => Ok TIME_WINDOW
  | ExternalMultiPartitionsDefinitionData _ => Ok MULTIPARTITIONED
  | ExternalDynamicPartitionsDefinitionData _ => Ok DYNAMIC
  | ExternalOtherPartitionsDefinitionData class_name =>
      Err (CheckError
             ("Invalid external partitions definition data type: " +:+ class_name))
  end.

(** The input is an instance of one of the four subclasses the classifier
    tests for. *)
Definition is_known_variant (d : ExternalPartitionsDefinitionData) : bool :=
  match d with
  | ExternalOtherPartitionsDefinitionData _ => false
  | _ => true
  end.

Record GrapheneDimensionDefinitionType : Type := mkDimensionType {
  dimension_name : string;
  dimension_description : string;
  dimension_type : GraphenePartitionDefinitionType;
  isPrimaryDimension : bool;
  dynamicPartitionsDefinitionName : option string;
}.

(** [d.name if isinstance(d, ExternalDynamicPartitionsDefinitionData) else None] *)
Definition dynamic_name_of (d : ExternalPartitionsDefinitionData) : option string :=
  match d with
  | ExternalDynamicPartitionsDefinitionData name => Some name
  | _ => None
  end.

(** What the file reads off a definition through
    [partition_def_data.get_partitions_definition()], a method implemented
    outside this file: the definition's [str], and for a multi-partitions
    definition the name of its [primary_dimension]. *)
Class PartitionsDefinitionMethods : Type := {
  partitions_definition_str : ExternalPartitionsDefinitionData → string;
  primary_dimension_name : ExternalPartitionsDefinitionData → string;
}.

Module GraphenePartitionDefinition.
Section Resolvers.
Context `{PartitionsDefinitionMethods}.

(** The element expression of the comprehension over the dimensions of a
    multi-partitions definition. *)
Definition dimension_of_multi (partition_def_data : ExternalPartitionsDefinitionData)
    (dim : ExternalPartitionDimensionDefinition)
  : result PyError GrapheneDimensionDefinitionType :=
  type ← from_partition_def_data (external_partitions_def_data dim);
  Ok {| dimension_name := dim_name dim;
        dimension_description :=
          partitions_definition_str (external_partitions_def_data dim);
        dimension_type := type;
        isPrimaryDimension :=
          bool_decide (dim_name dim = primary_dimension_name partition_def_data);
        dynamicPartitionsDefinitionName :=
          dynamic_name_of (external_partitions_def_data dim) |}.

(** [GraphenePartitionDefinition.resolve_dimensionTypes], with
    [self._partition_def_data] as its argument. *)
Definition resolve_dimensionTypes (partition_def_data : ExternalPartitionsDefinitionData)
  : result PyError (list GrapheneDimensionDefinitionType) :=
  match partition_def_data with
  | ExternalMultiPartitionsDefinitionData dims =>
      comprehension (dimension_of_multi partition_def_data) dims
  | _ =>
      type ← from_partition_def_data partition_def_data;
      Ok [ {| dimension_name := "default";
              dimension_description := "";
              dimension_type := type;
              isPrimaryDimension := true;
              dynamicPartitionsDefinitionName := dynamic_name_of partition_def_data |} ]
  end.

(** The dimensions marked primary in a resolved sequence. *)
Definition primary_dimensions (ds : list GrapheneDimensionDefinitionType)
  : list GrapheneDimensionDefinitionType :=
  filter (λ d, isPrimaryDimension d = true) ds.

(** The object [GraphenePartitionDefinition.__init__] builds: the data it
    keeps, and the fields it hands to [graphene.ObjectType]. *)
Record t : Type := mk {
  _partition_def_data : ExternalPartitionsDefinitionData;
  description : string;
  type : GraphenePartitionDefinitionType;
  name : option string;
}.

(** [GraphenePartitionDefinition.__init__] *)
Definition init (partition_def_data : ExternalPartitionsDefinitionData)
  : result PyError t :=
  classified ← from_partition_def_data partition_def_data;
  Ok (mk partition_def_data
         (partitions_definition_str partition_def_data)
         classified
         (dynamic_name_of partition_def_data)).

End Resolvers.

End GraphenePartitionDefinition.

(** ** Runs, run filters and the run ledger *)

(** A run status, by the name of its enum member; the enum
    ([GrapheneRunStatus]) is declared outside this file. *)
Abbreviation RunStatus := string.

Module RunRecord.
(** Modelled from the spec: the run record of section 3, which the run
    storage outside this file declares: run id, status, tags, duration. *)
Record t : Type := mk {
  run_id : string;
  status : RunStatus;
  tags : gmap string string;
  duration : option Z;
}.
End RunRecord.

Module RunsFilter.
(** [RunsFilter], with the four fields this file sets; a field left out of
    the constructor call is [None] or the empty dict. *)
Record t : Type := mk {
  run_ids : option (list string);
  job_name : option string;
  statuses : option (list RunStatus);
  tags : gmap string string;
}.
End RunsFilter.

(** Names this file imports from modules that are not part of it: the two
    tag constants of [dagster._core.storage.tags], [merge_dicts], and the
    [GrapheneRunsFilter] input type with its [to_selector]. *)
Class RunStorageImports : Type := {
  PARTITION_SET_TAG : string;
  PARTITION_NAME_TAG : string;
  merge_dicts : gmap string string → gmap string string → gmap string string;
  GrapheneRunsFilter : Type;
  to_selector : GrapheneRunsFilter → RunsFilter.t;
}.

(** What the file relies on about these imports: the two tag constants are
    different strings, and [merge_dicts] lets its last argument win. *)
Class RunStorageImportsLaws `{RunStorageImports} : Prop := {
  partition_tags_distinct : PARTITION_SET_TAG ≠ PARTITION_NAME_TAG;
  merge_dicts_lookup : ∀ (a b : gmap string string) (k : string),
    merge_dicts a b !! k = match b !! k with Some v => Some v | None => a !! k end;
}.

Record RepositoryHandle : Type := mkRepositoryHandle {
  repository_name : string;
  location_name : string;
}.

Module ExternalPartitionSet.
Record t : Type := mk {
  name : string;
  job_name : string;
  op_selection : option (list string);
  mode : string;
}.
End ExternalPartitionSet.

(** The call a resolver hands to [get_runs]. *)
Record GetRunsCall : Type := mkGetRunsCall {
  call_runs_filter : RunsFilter.t;
  call_cursor : option string;
  call_limit : option Z;
}.

Module GraphenePartition.
Record t : Type := mk {
  _external_repository_handle : RepositoryHandle;
  _external_partition_set : ExternalPartitionSet.t;
  _partition_name : string;
}.

Section Resolvers.
Context `{RunStorageImports}.

(** The dict literal [{PARTITION_SET_TAG: ..., PARTITION_NAME_TAG: ...}]:
    the entries are written in order, so the second would replace the
    first if the two keys were equal. *)
Definition partition_tags (self : t) : gmap string string :=
  <[PARTITION_NAME_TAG := _partition_name self]>
    (<[PARTITION_SET_TAG := ExternalPartitionSet.name (_external_partition_set self)]> ∅).

(** The [runs_filter] that [resolve_runs] builds. *)
Definition runs_filter_of (self : t) (filter : option GrapheneRunsFilter) : RunsFilter.t :=
  match filter with
  | Some filter =>
      let selector := to_selector filter in
      RunsFilter.mk
        (RunsFilter.run_ids selector)
        (RunsFilter.job_name selector)
        (RunsFilter.statuses selector)
        (merge_dicts (RunsFilter.tags selector) (partition_tags self))
  | None => RunsFilter.mk None None None (partition_tags self)
  end.

(** [GraphenePartition.resolve_runs]: it returns what [get_runs] returns
    for this call. *)
Definition resolve_runs (self : t) (filter : option GrapheneRunsFilter)
    (cursor : option string) (limit : option Z) : GetRunsCall :=
  mkGetRunsCall (runs_filter_of self filter) cursor limit.

End Resolvers.
End GraphenePartition.

Module RunLedgerQuery.

(** Modelled from the spec: the run ledger and its [find] (section 4.3) are
    implemented outside this file.  The ledger is the sequence of its
    records, newest first; [find] keeps the records that carry every tag of
    the filter with an equal value, whose status and run id are in the
    optional filters, that come after the cursor's record, and returns at
    most [limit] of them in the ledger's order. *)
Abbreviation Ledger := (list RunRecord.t).

Definition tags_match (tagFilter : gmap string string) (r : RunRecord.t) : Prop :=
  map_Forall (λ k v, RunRecord.tags r !! k = Some v) tagFilter.

Definition in_optional_filter (allowed : option (list string)) (x : string) : Prop :=
  match allowed with
  | None => True
  | Some xs => x ∈ xs
  end.

#[global] Instance in_optional_filter_dec allowed x : Decision (in_optional_filter allowed x).
Proof. destruct allowed; simpl; apply _. Defined.

Fixpoint after_cursor (cursor : string) (ledger : Ledger) : Ledger :=
  match ledger with
  | [] => []
  | r :: older =>
      if bool_decide (RunRecord.run_id r = cursor) then older
      else after_cursor cursor older
  end.

Definition find (ledger : Ledger) (tagFilter : gmap string string)
    (statusFilter runIdFilter : option (list string))
    (cursor : option string) (limit : option nat) : list RunRecord.t :=
  let page := from_option (λ c, after_cursor c ledger) ledger cursor in
  let found :=
    filter (λ r, tags_match tagFilter r
                 ∧ in_optional_filter statusFilter (RunRecord.status r)
                 ∧ in_optional_filter runIdFilter (RunRecord.run_id r)) page in
  from_option (λ n, take n found) found limit.

End RunLedgerQuery.

(** [GraphenePartitionStatus]: [runId], [runStatus] and [runDuration] are
    nullable fields. *)
Record GraphenePartitionStatus : Type := mkGraphenePartitionStatus {
  id : string;
  partitionName : string;
  runId : option string;
  runStatus : option RunStatus;
  runDuration : option Z;
}.

(** [GraphenePartitionStatusCounts] *)
Record GraphenePartitionStatusCounts : Type := mkGraphenePartitionStatusCounts {
  counts_runStatus : RunStatus;
  count : Z;
}.

Module PartitionStatusAggregator.

(** Modelled from the spec: [statusOf] and [statusCounts] (section 4.4) are
    implemented outside this file, which declares the object types their
    results are served as.  A partition's status is a run status or the
    explicit "unstarted". *)
Inductive PartitionRunStatus : Type :=
| LatestRun (s : RunStatus)
| unstarted.

#[global] Instance PartitionRunStatus_eq_dec : EqDecision PartitionRunStatus.
Proof. solve_decision. Defined.

#[global] Instance PartitionRunStatus_countable : Countable PartitionRunStatus.
Proof.
  refine (inj_countable'
            (λ s, match s with LatestRun r => Some r | unstarted => None end)
            (λ o, match o with Some r => LatestRun r | None => unstarted end) _).
  by intros [].
Defined.

(** The derived [PartitionStatus] of section 3. *)
Record PartitionStatus : Type := mkPartitionStatus {
  partition_key : string;
  latest_run_id : option string;
  run_status : PartitionRunStatus;
}.

(** The status an object of the schema's [GraphenePartitionStatus] stands for. *)
Definition status_served (g : GraphenePartitionStatus) : PartitionStatus :=
  {| partition_key := partitionName g;
     latest_run_id := runId g;
     run_status := from_option LatestRun unstarted (runStatus g) |}.

Section Aggregator.
Context `{RunStorageImports}.

(** The partition of a partition set that a key names. *)
Definition partition_of (handle : RepositoryHandle) (partitionSet : ExternalPartitionSet.t)
    (partitionKey : string) : GraphenePartition.t :=
  GraphenePartition.mk handle partitionSet partitionKey.

(** The ledger query of [statusOf]: the call [resolve_runs] makes for the
    partition when the caller gives no filter, cursor or limit. *)
Definition status_query (handle : RepositoryHandle) (partitionSet : ExternalPartitionSet.t)
    (partitionKey : string) : GetRunsCall :=
  GraphenePartition.resolve_runs (partition_of handle partitionSet partitionKey)
    None None None.

(** Modelled from the spec: [statusOf] queries the ledger with the two
    partition tags and takes the newest record, if any. *)
Definition statusOf (ledger : RunLedgerQuery.Ledger) (handle : RepositoryHandle)
    (partitionSet : ExternalPartitionSet.t) (partitionKey : string) : PartitionStatus :=
  let q := call_runs_filter (status_query handle partitionSet partitionKey) in
  match RunLedgerQuery.find ledger (RunsFilter.tags q)
          (RunsFilter.statuses q) (RunsFilter.run_ids q) None None with
  | newest :: _ =>
      mkPartitionStatus partitionKey
        (Some (RunRecord.run_id newest)) (LatestRun (RunRecord.status newest))
  | [] => mkPartitionStatus partitionKey None unstarted
  end.

(** One more partition in the bucket of status [s]. *)
Definition tally (buckets : gmap PartitionRunStatus nat) (s : PartitionRunStatus)
  : gmap PartitionRunStatus nat :=
  <[s := S (default 0 (buckets !! s))]> buckets.

(** Modelled from the spec: [statusCounts] resolves [statusOf] for each key
    and tallies the statuses. *)
Definition statusCounts (ledger : RunLedgerQuery.Ledger) (handle : RepositoryHandle)
    (partitionSet : ExternalPartitionSet.t) (keys : list string)
  : gmap PartitionRunStatus nat :=
  foldl (λ buckets k, tally buckets (run_status (statusOf ledger handle partitionSet k)))
    ∅ keys.

End Aggregator.

(** The total over all buckets. *)
Definition total_count (buckets : gmap PartitionRunStatus nat) : nat :=
  map_fold (λ _ n acc, n + acc) 0 buckets.

End PartitionStatusAggregator.

(** ** The request context *)

Record ExternalRepositoryOrigin : Type := mkExternalRepositoryOrigin {
  origin_repository_name : string;
}.

Record ExternalPartitionSetOrigin : Type := mkExternalPartitionSetOrigin {
  repository_origin : ExternalRepositoryOrigin;
  partition_set_name : string;
}.

Record PartitionBackfill : Type := mkPartitionBackfill {
  backfill_id : string;
  partition_set_origin : option ExternalPartitionSetOrigin;
}.

(** [GraphenePartitionBackfill(backfill)] *)
Inductive GraphenePartitionBackfill : Type :=
| mkGraphenePartitionBackfill (backfill : PartitionBackfill).

Definition backfill_of (g : GraphenePartitionBackfill) : PartitionBackfill :=
  match g with mkGraphenePartitionBackfill backfill => backfill end.

Record DagsterInstance : Type := mkDagsterInstance {
  get_backfills : option string → list PartitionBackfill;
}.

(** What [get_external_partition_names] returns: the names, or the error of
    the user code that computes them. *)
Inductive ExternalPartitionNamesOrError : Type :=
| ExternalPartitionNamesData (partition_names : list string)
| ExternalPartitionExecutionErrorData (error : string).

Module ResolveInfo.

Record WorkspaceRequestContext : Type := mkContext {
  get_external_partition_names :
    RepositoryHandle → string → DagsterInstance → option (list string)
    → ExternalPartitionNamesOrError;
  instance : DagsterInstance;
}.

Record t : Type := mk {
  context : WorkspaceRequestContext;
}.

End ResolveInfo.

(** ** Partition sets *)

Module GraphenePartitionSet.

Record t : Type := mk {
  _external_repository_handle : RepositoryHandle;
  _external_partition_set : ExternalPartitionSet.t;
  _partition_names : option (list string);
}.

(** [__init__] *)
Definition init (external_repository_handle : RepositoryHandle)
    (external_partition_set : ExternalPartitionSet.t) : t :=
  mk external_repository_handle external_partition_set None.

(** The state a method call runs in: the object [self] refers to, and the
    number of calls made so far to [get_external_partition_names]. *)
Record World : Type := mkWorld {
  self_object : t;
  external_fetches : nat;
}.

(** A method body: it reads and writes the world, and returns or raises. *)
Definition Method (A : Type) : Type := World → result PyError A * World.

#[global] Instance Method_ret : MRet Method := λ A a w, (Ok a, w).

Definition raise {A} (e : PyError) : Method A := λ w, (Err e, w).

(** An exception ends the body; what was written before it stays written. *)
#[global] Instance Method_bind : MBind Method := λ A B k m w,
  match m w with
  | (Ok a, w') => k a w'
  | (Err e, w') => (Err e, w')
  end.

(** [self._partition_names] *)
Definition read_partition_names : Method (option (list string)) :=
  λ w, (Ok (_partition_names (self_object w)), w).

(** [self._partition_names = names] *)
Definition write_partition_names (names : list string) : Method unit :=
  λ w, (Ok tt,
        mkWorld (mk (_external_repository_handle (self_object w))
                    (_external_partition_set (self_object w))
                    (Some names))
                (external_fetches w)).

(** [graphene_info.context.get_external_partition_names(...)] for [self] *)
Definition fetch_partition_names (graphene_info : ResolveInfo.t)
  : Method ExternalPartitionNamesOrError :=
  λ w, (Ok (ResolveInfo.get_external_partition_names (ResolveInfo.context graphene_info)
              (_external_repository_handle (self_object w))
              (ExternalPartitionSet.job_name (_external_partition_set (self_object w)))
              (ResolveInfo.instance (ResolveInfo.context graphene_info))
              None),
        mkWorld (self_object w) (S (external_fetches w))).

(** [GraphenePartitionSet._get_partition_names] *)
Definition _get_partition_names (graphene_info : ResolveInfo.t) : Method (list string) :=
  memo ← read_partition_names ;
  match memo with
  | None =>
      result ← fetch_partition_names graphene_info ;
      match result with
      | ExternalPartitionExecutionErrorData error =>
          raise (DagsterUserCodeProcessError error)
      | ExternalPartitionNamesData partition_names =>
          _ ← write_partition_names partition_names ;
          mret partition_names
      end
  | Some names => mret names
  end.

(** The condition of the comprehension in [resolve_backfills]. *)
Definition backfill_matches (self : t) (backfill : PartitionBackfill) : bool :=
  match partition_set_origin backfill with
  | None => false
  | Some origin =>
      bool_decide (partition_set_name origin
                   = ExternalPartitionSet.name (_external_partition_set self))
      && bool_decide (origin_repository_name (repository_origin origin)
                      = repository_name (_external_repository_handle self))
  end.

(** [GraphenePartitionSet.resolve_backfills] *)
Definition resolve_backfills (self : t) (graphene_info : ResolveInfo.t)
    (cursor : option string) (limit : option Z) : list GraphenePartitionBackfill :=
  let matching :=
    filter (λ backfill, backfill_matches self backfill = true)
      (get_backfills (ResolveInfo.instance (ResolveInfo.context graphene_info)) cursor) in
  mkGraphenePartitionBackfill <$> slice_to matching limit.

(** [self] *)
Definition read_self : Method t := λ w, (Ok (self_object w), w).

(** The call a resolver hands to [get_partitions]. *)
Record GetPartitionsCall : Type := mkGetPartitionsCall {
  partitions_repository_handle : RepositoryHandle;
  partitions_partition_set : ExternalPartitionSet.t;
  partitions_partition_names : list string;
  partitions_cursor : option string;
  partitions_limit : option Z;
  partitions_reverse : bool;
}.

(** The call a resolver hands to [get_partition_set_partition_runs] or to
    [get_partition_set_partition_statuses]. *)
Record PartitionSetCall : Type := mkPartitionSetCall {
  call_graphene_info : ResolveInfo.t;
  call_partition_set : ExternalPartitionSet.t;
  call_partition_names : list string;
}.

(** The body of [GraphenePartitionSet.resolve_partitionsOrError]: it
    returns what [get_partitions] returns for this call.  [reverse or False]
    reads an absent [reverse] as [False]. *)
Definition resolve_partitionsOrError (graphene_info : ResolveInfo.t)
    (cursor : option string) (limit : option Z) (reverse : option bool)
  : Method GetPartitionsCall :=
  self ← read_self;
  names ← _get_partition_names graphene_info;
  mret (mkGetPartitionsCall
          (_external_repository_handle self) (_external_partition_set self)
          names cursor limit (default false reverse)).

(** [GraphenePartitionSet.resolve_partitionRuns]: it returns what
    [get_partition_set_partition_runs] returns for this call. *)
Definition resolve_partitionRuns (graphene_info : ResolveInfo.t)
  : Method PartitionSetCall :=
  self ← read_self;
  names ← _get_partition_names graphene_info;
  mret (mkPartitionSetCall graphene_info (_external_partition_set self) names).

(** The body of [GraphenePartitionSet.resolve_partitionStatusesOrError]: it
    returns what [get_partition_set_partition_statuses] returns for this
    call. *)
Definition resolve_partitionStatusesOrError (graphene_info : ResolveInfo.t)
  : Method PartitionSetCall :=
  self ← read_self;
  names ← _get_partition_names graphene_info;
  mret (mkPartitionSetCall graphene_info (_external_partition_set self) names).

(** Calls of [_get_partition_names] made one after the other on the same
    object, each under the request context of its own request. *)
Fixpoint calls (infos : list ResolveInfo.t) (w : World)
  : list (result PyError (list string)) * World :=
  match infos with
  | [] => ([], w)
  | graphene_info :: later =>
      let first := _get_partition_names graphene_info w in
      let rest := calls later first.2 in
      (first.1 :: rest.1, rest.2)
  end.

End GraphenePartitionSet.

(** ** The packaging script of dagster-notdiamond (setup.py) *)

Module NotDiamondSetup.

(** [pin = "" if ver == "1!0+dev" else f"=={ver}"] *)
Definition pin (ver : string) : string :=
  if bool_decide (ver = "1!0+dev") then "" else "==" +:+ ver.

(** The [install_requires] argument of [setup]. *)
Definition install_requires (ver : string) : list string :=
  [ "dagster" +:+ pin ver; "notdiamond" ].

End NotDiamondSetup.

(** ** Well-formed inputs and sample values *)

(** A definition the schema can describe: an instance of one of the four
    subclasses; for a multi-partitions definition, dimensions that are such
    instances, under names that do not repeat, one of which is the name of
    the primary dimension. *)
Definition well_formed_definition `{PartitionsDefinitionMethods}
    (d : ExternalPartitionsDefinitionData) : Prop :=
  match d with
  | ExternalMultiPartitionsDefinitionData dims =>
      NoDup (dim_name <$> dims)
      ∧ primary_dimension_name d ∈ (dim_name <$> dims)
      ∧ Forall (λ dim, is_known_variant (external_partitions_def_data dim) = true) dims
  | _ => is_known_variant d = true
  end.

Module Sample.

(** The values the two tag constants have in [dagster._core.storage.tags],
    [merge_dicts] as a right-biased union (stdpp's [∪] is left-biased), and a
    run filter given directly as its selector. *)
Definition imports : RunStorageImports :=
  {| PARTITION_SET_TAG := "dagster/partition_set";
     PARTITION_NAME_TAG := "dagster/partition";
     merge_dicts := λ a b, b ∪ a;
     GrapheneRunsFilter := RunsFilter.t;
     to_selector := λ f, f |}.

(** A primary dimension chosen as the first of the dimensions. *)
Definition definition_methods : PartitionsDefinitionMethods :=
  {| partitions_definition_str := λ _, "";
     primary_dimension_name := λ d,
       match d with
       | ExternalMultiPartitionsDefinitionData (dim :: _) => dim_name dim
       | _ => ""
       end |}.

Definition date_by_region : ExternalPartitionsDefinitionData :=
  ExternalMultiPartitionsDefinitionData
    [ mkDimension "date"
        (ExternalTimeWindowPartitionsDefinitionData 0 "0 0 * * *" "UTC" None);
      mkDimension "region" (ExternalDynamicPartitionsDefinitionData "regions") ].

Definition handle : RepositoryHandle := mkRepositoryHandle "repo" "location".

Definition partition_set : ExternalPartitionSet.t :=
  ExternalPartitionSet.mk "letters_partition_set" "letters" None "default".

Definition run (run_id status set_name partition : string) : RunRecord.t :=
  RunRecord.mk run_id status
    (<["dagster/partition" := partition]> (<["dagster/partition_set" := set_name]> ∅))
    None.

Definition origin (set_name repo : string) : option ExternalPartitionSetOrigin :=
  Some (mkExternalPartitionSetOrigin (mkExternalRepositoryOrigin repo) set_name).

Definition backfill_1 : PartitionBackfill :=
  mkPartitionBackfill "b1" (origin "letters_partition_set" "repo").
Definition backfill_2 : PartitionBackfill :=
  mkPartitionBackfill "b2" (origin "letters_partition_set" "repo").
Definition backfill_other_set : PartitionBackfill :=
  mkPartitionBackfill "b3" (origin "digits_partition_set" "repo").
Definition backfill_no_origin : PartitionBackfill :=
  mkPartitionBackfill "b4" None.

(** A context whose user code answers with the given partition names and
    whose instance stores the given backfills. *)
Definition info (names : list string) (stored : list PartitionBackfill) : ResolveInfo.t :=
  ResolveInfo.mk
    (ResolveInfo.mkContext
       (λ _ _ _ _, ExternalPartitionNamesData names)
       (mkDagsterInstance (λ _, stored))).

Definition fresh_world : GraphenePartitionSet.World :=
  GraphenePartitionSet.mkWorld (GraphenePartitionSet.init handle partition_set) 0.

(** A context whose user code fails with the given error. *)
Definition failing_info (error : string) : ResolveInfo.t :=
  ResolveInfo.mk
    (ResolveInfo.mkContext
       (λ _ _ _ _, ExternalPartitionExecutionErrorData error)
       (mkDagsterInstance (λ _, []))).

Definition other_partition_set : ExternalPartitionSet.t :=
  ExternalPartitionSet.mk "digits_partition_set" "digits" None "default".

End Sample.

(* ===================================================================== *)
(** * Part II: properties                                                 *)
(* ===================================================================== *)

(** ** Partition-definition kinds *)

Lemma from_partition_def_data_fails_only_on_unknown d e :
  from_partition_def_data d = Err e → is_known_variant d = false.
Proof. destruct d; simpl; congruence. Qed.

(** C8.  The kinds form a closed union of four variants: on an instance of
    one of the four subclasses the classifier returns STATIC, TIME_WINDOW,
    MULTIPARTITIONED or DYNAMIC according to the subclass, every member of
    the enum is one of these four, and the failure branch is not taken. *)
Theorem from_partition_def_data_closed_union (d : ExternalPartitionsDefinitionData) :
  is_known_variant d = true →
  from_partition_def_data d
  = Ok (match d with
        | ExternalStaticPartitionsDefinitionData _ => STATIC
        | ExternalTimeWindowPartitionsDefinitionData _ _ _ _ => TIME_WINDOW
        | ExternalMultiPartitionsDefinitionData _ => MULTIPARTITIONED
        | _ => DYNAMIC
        end)
  ∧ (∀ e, from_partition_def_data d ≠ Err e)
  ∧ (∀ ty : GraphenePartitionDefinitionType,
       ty ∈ [STATIC; TIME_WINDOW; MULTIPARTITIONED; DYNAMIC]).
Proof.
  intros Hknown. split_and!.
  - destruct d; simpl in *; congruence.
  - intros e He. apply from_partition_def_data_fails_only_on_unknown in He. congruence.
  - intros []; set_solver.
Qed.

Lemma from_partition_def_data_closed_union_witness :
  from_partition_def_data (ExternalDynamicPartitionsDefinitionData "regions") = Ok DYNAMIC
  ∧ from_partition_def_data (ExternalStaticPartitionsDefinitionData ["a"; "b"]) = Ok STATIC.
Proof.
  split.
  - apply (from_partition_def_data_closed_union
             (ExternalDynamicPartitionsDefinitionData "regions")). reflexivity.
  - apply (from_partition_def_data_closed_union
             (ExternalStaticPartitionsDefinitionData ["a"; "b"])). reflexivity.
Defined.

(** ** Dimension descriptors *)

Section DimensionTypes.
Context `{PartitionsDefinitionMethods}.

Lemma filter_eq_length_NoDup (names : list string) (p : string) :
  NoDup names → p ∈ names → length (filter (λ n, n = p) names) = 1.
Proof.
  induction 1 as [|n names Hnotin Hnodup IH]; intros Hin.
  - by apply elem_of_nil in Hin.
  - rewrite filter_cons. destruct (decide (n = p)) as [->|Hne]; simpl.
    + f_equal. destruct (filter (λ n, n = p) names) as [|x rest] eqn:Hfilter; [done|].
      assert (Hx : x ∈ filter (λ n, n = p) names) by (rewrite Hfilter; left).
      apply list_elem_of_filter in Hx as [-> Hx]. contradiction.
    + apply IH. apply elem_of_cons in Hin as [?|?]; [congruence | done].
Qed.

(** The comprehension over known dimensions succeeds, and its descriptors
    stand in the order of the dimensions, each with its dimension's name and
    with the primary flag set by the comparison of names. *)
Lemma comprehension_dimension_of_multi d dims :
  Forall (λ dim, is_known_variant (external_partitions_def_data dim) = true) dims →
  ∃ ds,
    comprehension (GraphenePartitionDefinition.dimension_of_multi d) dims = Ok ds
    ∧ Forall2 (λ dim x,
                 dimension_name x = dim_name dim
                 ∧ isPrimaryDimension x
                   = bool_decide (dim_name dim = primary_dimension_name d))
        dims ds.
Proof.
  induction 1 as [|dim dims Hknown _ [ds [Hds Hrel]]]; cbn [comprehension].
  - eexists. split; [reflexivity | constructor].
  - rewrite Hds.
    unfold GraphenePartitionDefinition.dimension_of_multi.
    destruct (from_partition_def_data (external_partitions_def_data dim)) as [ty|e] eqn:Hty.
    + eexists. split; [reflexivity|].
      constructor; [split; reflexivity | exact Hrel].
    + apply from_partition_def_data_fails_only_on_unknown in Hty. congruence.
Qed.

Lemma primary_dimensions_length p dims ds :
  Forall2 (λ (dim : ExternalPartitionDimensionDefinition) x,
             dimension_name x = dim_name dim
             ∧ isPrimaryDimension x = bool_decide (dim_name dim = p))
    dims ds →
  length (GraphenePartitionDefinition.primary_dimensions ds)
  = length (filter (λ n, n = p) (dim_name <$> dims)).
Proof.
  unfold GraphenePartitionDefinition.primary_dimensions.
  induction 1 as [|dim x dims ds [Hname Hprimary] _ IH]; [reflexivity|].
  rewrite fmap_cons, !filter_cons, Hprimary.
  destruct (decide (dim_name dim = p)) as [Heq|Hne].
  - rewrite bool_decide_eq_true_2 by done. rewrite decide_True by done.
    simpl. by rewrite IH.
  - rewrite bool_decide_eq_false_2 by done. rewrite decide_False by done.
    exact IH.
Qed.

(** C7.  For a well-formed definition the resolver returns a sequence of
    dimension descriptors with exactly one marked primary: for a
    multi-partitions definition it is the descriptor whose name is the name
    of the primary dimension; for every other definition the sequence is the
    single descriptor named "default", marked primary. *)
Theorem resolve_dimensionTypes_one_primary (d : ExternalPartitionsDefinitionData) :
  well_formed_definition d →
  ∃ ds,
    GraphenePartitionDefinition.resolve_dimensionTypes d = Ok ds
    ∧ length (GraphenePartitionDefinition.primary_dimensions ds) = 1
    ∧ match d with
      | ExternalMultiPartitionsDefinitionData dims =>
          (dimension_name <$> ds) = (dim_name <$> dims)
          ∧ ∀ x, x ∈ ds →
              (isPrimaryDimension x = true
               ↔ dimension_name x = primary_dimension_name d)
      | _ =>
          ∃ ty, from_partition_def_data d = Ok ty
                ∧ ds = [ mkDimensionType "default" "" ty true (dynamic_name_of d) ]
      end.
Proof.
  intros Hwf.
  destruct d as [keys|start cron tz end_|dims|name|cls];
    try (simpl in Hwf; discriminate Hwf);
    try (eexists; split_and!; [reflexivity | reflexivity | eexists; split; reflexivity]).
  destruct Hwf as (Hnodup & Hprimary & Hknown).
  destruct (comprehension_dimension_of_multi
              (ExternalMultiPartitionsDefinitionData dims) dims Hknown)
    as (ds & Hds & Hrel).
  exists ds. split_and!.
  - exact Hds.
  - rewrite (primary_dimensions_length _ _ _ Hrel).
    by apply filter_eq_length_NoDup.
  - clear -Hrel. induction Hrel as [|dim x dims' ds' [Hname _] _ IH]; [reflexivity|].
    rewrite !fmap_cons. by f_equal.
  - intros x Hx.
    apply list_elem_of_lookup in Hx as [i Hi].
    destruct (Forall2_lookup_r _ _ _ _ _ Hrel Hi) as (dim & _ & Hname & Hflag).
    rewrite Hflag, Hname. apply bool_decide_eq_true.
Qed.

End DimensionTypes.

Lemma resolve_dimensionTypes_one_primary_witness :
  well_formed_definition (H := Sample.definition_methods) Sample.date_by_region
  ∧ ∃ ds,
      GraphenePartitionDefinition.resolve_dimensionTypes
        (H := Sample.definition_methods) Sample.date_by_region = Ok ds
      ∧ length (GraphenePartitionDefinition.primary_dimensions ds) = 1.
Proof.
  assert (Hwf : well_formed_definition (H := Sample.definition_methods)
                  Sample.date_by_region).
  { split_and!.
    - apply (bool_decide_unpack _). vm_compute. exact I.
    - apply (bool_decide_unpack _). vm_compute. exact I.
    - repeat constructor. }
  split; [exact Hwf|].
  destruct (resolve_dimensionTypes_one_primary (H := Sample.definition_methods)
              Sample.date_by_region Hwf) as (ds & Hds & Hone & _).
  exists ds. split; assumption.
Defined.

(** ** The runs of a partition *)

(** The sample imports satisfy what the file relies on. *)
Lemma sample_imports_laws : RunStorageImportsLaws (H := Sample.imports).
Proof.
  split.
  - discriminate.
  - intros a b k. simpl. rewrite lookup_union.
    destruct (b !! k), (a !! k); reflexivity.
Qed.

Section PartitionRuns.
Context `{RunStorageImports} `{!RunStorageImportsLaws}.

Lemma partition_tags_lookup_set (self : GraphenePartition.t) :
  GraphenePartition.partition_tags self !! PARTITION_SET_TAG
  = Some (ExternalPartitionSet.name (GraphenePartition._external_partition_set self)).
Proof.
  unfold GraphenePartition.partition_tags.
  rewrite lookup_insert_ne by (intros Heq; symmetry in Heq; exact (partition_tags_distinct Heq)).
  apply lookup_insert_eq.
Qed.

Lemma partition_tags_lookup_name (self : GraphenePartition.t) :
  GraphenePartition.partition_tags self !! PARTITION_NAME_TAG
  = Some (GraphenePartition._partition_name self).
Proof. unfold GraphenePartition.partition_tags. apply lookup_insert_eq. Qed.

Lemma partition_tags_lookup_other (self : GraphenePartition.t) (k : string) :
  k ≠ PARTITION_SET_TAG → k ≠ PARTITION_NAME_TAG →
  GraphenePartition.partition_tags self !! k = None.
Proof.
  intros Hset Hname. unfold GraphenePartition.partition_tags.
  rewrite !lookup_insert_ne by congruence. apply lookup_empty.
Qed.

(** C9.  Whatever run filter the caller supplies, and also when the caller
    supplies none, the filter that [resolve_runs] sends to the ledger maps
    the partition-set tag to the name of this partition's set and the
    partition-name tag to the name of this partition: for these two keys the
    partition's tags replace the caller's. *)
Theorem resolve_runs_partition_tags_override
    (self : GraphenePartition.t) (filter : option GrapheneRunsFilter)
    (cursor : option string) (limit : option Z) :
  let sent := call_runs_filter (GraphenePartition.resolve_runs self filter cursor limit) in
  RunsFilter.tags sent !! PARTITION_SET_TAG
  = Some (ExternalPartitionSet.name (GraphenePartition._external_partition_set self))
  ∧ RunsFilter.tags sent !! PARTITION_NAME_TAG
    = Some (GraphenePartition._partition_name self).
Proof.
  destruct filter as [filter|]; simpl.
  - rewrite !merge_dicts_lookup.
    by rewrite partition_tags_lookup_set, partition_tags_lookup_name.
  - by rewrite partition_tags_lookup_set, partition_tags_lookup_name.
Qed.

(** The caller's other tags and criteria reach the ledger unchanged. *)
Lemma resolve_runs_keeps_caller_criteria
    (self : GraphenePartition.t) (filter : GrapheneRunsFilter)
    (cursor : option string) (limit : option Z) :
  let sent := call_runs_filter (GraphenePartition.resolve_runs self (Some filter) cursor limit) in
  RunsFilter.run_ids sent = RunsFilter.run_ids (to_selector filter)
  ∧ RunsFilter.job_name sent = RunsFilter.job_name (to_selector filter)
  ∧ RunsFilter.statuses sent = RunsFilter.statuses (to_selector filter)
  ∧ ∀ k, k ≠ PARTITION_SET_TAG → k ≠ PARTITION_NAME_TAG →
      RunsFilter.tags sent !! k = RunsFilter.tags (to_selector filter) !! k.
Proof.
  simpl. split_and!; try reflexivity.
  intros k Hset Hname.
  by rewrite merge_dicts_lookup, partition_tags_lookup_other.
Qed.

End PartitionRuns.

Lemma resolve_runs_partition_tags_override_witness :
  let caller :=
    RunsFilter.mk None (Some "letters") None
      (<["dagster/partition" := "z"]> (<["team" := "data"]> ∅)) in
  let self := GraphenePartition.mk Sample.handle Sample.partition_set "b" in
  let sent :=
    call_runs_filter
      (GraphenePartition.resolve_runs (H := Sample.imports) self (Some caller) None (Some 10%Z)) in
  RunsFilter.tags sent !! "dagster/partition_set" = Some "letters_partition_set"
  ∧ RunsFilter.tags sent !! "dagster/partition" = Some "b".
Proof.
  exact (@resolve_runs_partition_tags_override Sample.imports sample_imports_laws
           (GraphenePartition.mk Sample.handle Sample.partition_set "b")
           (Some (RunsFilter.mk None (Some "letters") None
                    (<["dagster/partition" := "z"]> (<["team" := "data"]> ∅))))
           None (Some 10%Z)).
Defined.

(** ** Partition status and status counts *)

Section StatusOf.
Context `{RunStorageImports} `{!RunStorageImportsLaws}.

(** A record passes the tag filter of a partition exactly when it carries
    both partition tags with the partition's values. *)
Lemma tags_match_partition_tags (self : GraphenePartition.t) (r : RunRecord.t) :
  RunLedgerQuery.tags_match (GraphenePartition.partition_tags self) r
  ↔ RunRecord.tags r !! PARTITION_SET_TAG
    = Some (ExternalPartitionSet.name (GraphenePartition._external_partition_set self))
    ∧ RunRecord.tags r !! PARTITION_NAME_TAG
      = Some (GraphenePartition._partition_name self).
Proof.
  unfold RunLedgerQuery.tags_match, GraphenePartition.partition_tags.
  rewrite map_Forall_insert.
  - rewrite map_Forall_insert by apply lookup_empty.
    pose proof (@map_Forall_empty string (gmap string) _ _ _ _ _ _ _ _ _ string
                  (λ k v, RunRecord.tags r !! k = Some v)).
    tauto.
  - rewrite lookup_insert_ne; [apply lookup_empty|].
    exact partition_tags_distinct.
Qed.

(** C4.  The status query of a partition carries exactly the two partition
    tags and no other criterion; a ledger record answers it exactly when it
    has both tags with the partition set's name and the partition key as
    values; [statusOf] reports the newest such record, and when there is
    none it reports "unstarted" with no run id, which the schema's status
    object can only serve with a null run id and a null run status. *)
Theorem statusOf_newest_matching_run
    (ledger : RunLedgerQuery.Ledger) (handle : RepositoryHandle)
    (partitionSet : ExternalPartitionSet.t) (partitionKey : string) :
  let q := call_runs_filter
             (PartitionStatusAggregator.status_query handle partitionSet partitionKey) in
  let answers (r : RunRecord.t) :=
    RunRecord.tags r !! PARTITION_SET_TAG = Some (ExternalPartitionSet.name partitionSet)
    ∧ RunRecord.tags r !! PARTITION_NAME_TAG = Some partitionKey in
  let reported :=
    PartitionStatusAggregator.statusOf ledger handle partitionSet partitionKey in
  (dom (RunsFilter.tags q) = {[PARTITION_SET_TAG; PARTITION_NAME_TAG]}
   ∧ size (RunsFilter.tags q) = 2
   ∧ RunsFilter.run_ids q = None
   ∧ RunsFilter.job_name q = None
   ∧ RunsFilter.statuses q = None)
  ∧ (∀ r, RunLedgerQuery.tags_match (RunsFilter.tags q) r ↔ answers r)
  ∧ reported
    = match filter answers ledger with
      | newest :: _ =>
          PartitionStatusAggregator.mkPartitionStatus partitionKey
            (Some (RunRecord.run_id newest))
            (PartitionStatusAggregator.LatestRun (RunRecord.status newest))
      | [] =>
          PartitionStatusAggregator.mkPartitionStatus partitionKey
            None PartitionStatusAggregator.unstarted
      end
  ∧ (filter answers ledger = [] →
     PartitionStatusAggregator.run_status reported = PartitionStatusAggregator.unstarted
     ∧ PartitionStatusAggregator.latest_run_id reported = None
     ∧ ∀ g : GraphenePartitionStatus,
         PartitionStatusAggregator.status_served g = reported →
         runId g = None ∧ runStatus g = None).
Proof.
  intros q answers reported.
  set (self := PartitionStatusAggregator.partition_of handle partitionSet partitionKey).
  assert (Hanswers : ∀ r, RunLedgerQuery.tags_match (RunsFilter.tags q) r ↔ answers r).
  { intros r. apply (tags_match_partition_tags self). }
  assert (Hreported : reported
    = match filter answers ledger with
      | newest :: _ =>
          PartitionStatusAggregator.mkPartitionStatus partitionKey
            (Some (RunRecord.run_id newest))
            (PartitionStatusAggregator.LatestRun (RunRecord.status newest))
      | [] =>
          PartitionStatusAggregator.mkPartitionStatus partitionKey
            None PartitionStatusAggregator.unstarted
      end).
  { subst reported. unfold PartitionStatusAggregator.statusOf, RunLedgerQuery.find.
    simpl.
    rewrite (list_filter_iff _ answers); [reflexivity|].
    intros r. specialize (Hanswers r). subst q. simpl in Hanswers. tauto. }
  split; [|split; [exact Hanswers | split; [exact Hreported|]]].
  - subst q. simpl. unfold GraphenePartition.partition_tags.
    split; [|split; [|done]].
    + rewrite !dom_insert_L, dom_empty_L, (right_id_L ∅ (∪)). apply (comm_L (∪)).
    + rewrite map_size_insert_None.
      * by rewrite map_size_insert_None, map_size_empty by apply lookup_empty.
      * rewrite lookup_insert_ne; [apply lookup_empty | exact partition_tags_distinct].
  - intros Hnone. rewrite Hreported, Hnone. simpl. split; [done|split; [done|]].
    intros [gid gname grun gstatus gduration]. unfold PartitionStatusAggregator.status_served.
    simpl. intros Hserved. injection Hserved as _ Hrun Hstatus.
    split; [exact Hrun|]. by destruct gstatus.
Qed.

End StatusOf.

Lemma statusOf_newest_matching_run_witness :
  let ledger :=
    [ Sample.run "r3" "FAILURE" "letters_partition_set" "b";
      Sample.run "r2" "SUCCESS" "letters_partition_set" "a";
      Sample.run "r1" "SUCCESS" "letters_partition_set" "b" ] in
  PartitionStatusAggregator.statusOf (H := Sample.imports)
    ledger Sample.handle Sample.partition_set "b"
  = PartitionStatusAggregator.mkPartitionStatus "b" (Some "r3")
      (PartitionStatusAggregator.LatestRun "FAILURE")
  ∧ PartitionStatusAggregator.statusOf (H := Sample.imports)
      ledger Sample.handle Sample.partition_set "c"
    = PartitionStatusAggregator.mkPartitionStatus "c" None
        PartitionStatusAggregator.unstarted.
Proof.
  intros ledger. split.
  - destruct (@statusOf_newest_matching_run Sample.imports sample_imports_laws
                ledger Sample.handle Sample.partition_set "b") as (_ & _ & -> & _).
    vm_compute. reflexivity.
  - destruct (@statusOf_newest_matching_run Sample.imports sample_imports_laws
                ledger Sample.handle Sample.partition_set "c") as (_ & _ & -> & _).
    vm_compute. reflexivity.
Defined.

Module StatusCountsFacts.
Import PartitionStatusAggregator.

(** Counting one more partition adds one to the total. *)
Lemma total_count_tally
    (buckets : gmap PartitionRunStatus nat) (s : PartitionRunStatus) :
  total_count (tally buckets s) = S (total_count buckets).
Proof.
  unfold total_count, tally.
  assert (Hcomm : ∀ (m : gmap PartitionRunStatus nat) j1 j2 z1 z2 (y : nat),
             j1 ≠ j2 → m !! j1 = Some z1 → m !! j2 = Some z2 →
             z1 + (z2 + y) = z2 + (z1 + y)) by (intros; lia).
  destruct (buckets !! s) as [n|] eqn:Hs; simpl.
  - rewrite <- insert_delete_eq.
    rewrite map_fold_insert_L; [|by eauto|apply lookup_delete_eq].
    rewrite (map_fold_delete_L _ _ s n buckets); [|by eauto|done].
    lia.
  - rewrite map_fold_insert_L; [|by eauto|done]. lia.
Qed.

(** Counting one more partition adds one to its bucket and leaves the other
    buckets as they are. *)
Lemma lookup_tally
    (buckets : gmap PartitionRunStatus nat) (s s' : PartitionRunStatus) :
  default 0 (tally buckets s !! s')
  = default 0 (buckets !! s') + (if decide (s = s') then 1 else 0).
Proof.
  unfold tally. destruct (decide (s = s')) as [->|Hne].
  - rewrite lookup_insert_eq. simpl. lia.
  - rewrite lookup_insert_ne by done. lia.
Qed.

Lemma foldl_tally (status_of : string → PartitionRunStatus)
    (keys : list string) (buckets : gmap PartitionRunStatus nat) :
  let counted := foldl (λ b k, tally b (status_of k)) buckets keys in
  total_count counted = total_count buckets + length keys
  ∧ ∀ s, default 0 (counted !! s)
         = default 0 (buckets !! s) + length (filter (λ k, status_of k = s) keys).
Proof.
  revert buckets. induction keys as [|k keys IH]; intros buckets; cbn [foldl length].
  - split; [lia | intros s; rewrite filter_nil; simpl; lia].
  - destruct (IH (tally buckets (status_of k))) as [Htotal Hbucket]. split.
    + rewrite Htotal, total_count_tally. lia.
    + intros s. rewrite Hbucket, lookup_tally, filter_cons.
      destruct (decide (status_of k = s)); simpl; lia.
Qed.

End StatusCountsFacts.

(** C1.  The counts of all buckets of [statusCounts], the "unstarted" bucket
    among them, add up to the number of keys queried; the bucket of each
    status counts the keys whose partition has that status, so that every
    key is counted once, in one bucket; and no keys give the empty mapping. *)
Theorem statusCounts_accounts_for_every_key `{RunStorageImports}
    (ledger : RunLedgerQuery.Ledger) (handle : RepositoryHandle)
    (partitionSet : ExternalPartitionSet.t) (keys : list string) :
  let buckets := PartitionStatusAggregator.statusCounts ledger handle partitionSet keys in
  PartitionStatusAggregator.total_count buckets = length keys
  ∧ (∀ s, default 0 (buckets !! s)
          = length (filter
                      (λ k, PartitionStatusAggregator.run_status
                              (PartitionStatusAggregator.statusOf ledger handle partitionSet k)
                            = s)
                      keys))
  ∧ PartitionStatusAggregator.statusCounts ledger handle partitionSet [] = ∅.
Proof.
  intros buckets. subst buckets. unfold PartitionStatusAggregator.statusCounts.
  destruct (StatusCountsFacts.foldl_tally
              (λ k, PartitionStatusAggregator.run_status
                      (PartitionStatusAggregator.statusOf ledger handle partitionSet k))
              keys ∅) as [Htotal Hbucket].
  split; [|split].
  - rewrite Htotal. unfold PartitionStatusAggregator.total_count.
    by rewrite map_fold_empty.
  - intros s. rewrite Hbucket, lookup_empty. reflexivity.
  - reflexivity.
Qed.

(** The scenario of the spec: keys a, b, c and one SUCCESS run of b. *)
Example statusCounts_scenario :
  PartitionStatusAggregator.statusCounts (H := Sample.imports)
    [ Sample.run "r1" "SUCCESS" "letters_partition_set" "b" ]
    Sample.handle Sample.partition_set ["a"; "b"; "c"]
  = <[PartitionStatusAggregator.LatestRun "SUCCESS" := 1]>
      (<[PartitionStatusAggregator.unstarted := 2]> ∅).
Proof.
  apply map_eq. intros s.
  destruct (decide (s = PartitionStatusAggregator.LatestRun "SUCCESS")) as [->|Hne1].
  { vm_compute. reflexivity. }
  destruct (decide (s = PartitionStatusAggregator.unstarted)) as [->|Hne2].
  { vm_compute. reflexivity. }
  rewrite !lookup_insert_ne, lookup_empty by congruence.
  unfold PartitionStatusAggregator.statusCounts. cbn [foldl].
  unfold PartitionStatusAggregator.tally.
  rewrite !lookup_insert_ne by
    (vm_compute; first [congruence | intros Heq; inversion Heq; subst; congruence]).
  apply lookup_empty.
Qed.

(** ** Partition names of a partition set *)

Section PartitionNames.
Import GraphenePartitionSet.

(** What one call does, by the state of the memo and the answer of the
    external source. *)
Lemma _get_partition_names_cases (graphene_info : ResolveInfo.t) (w : World) :
  _get_partition_names graphene_info w
  = match _partition_names (self_object w) with
    | Some names => (Ok names, w)
    | None =>
        match ResolveInfo.get_external_partition_names
                (ResolveInfo.context graphene_info)
                (_external_repository_handle (self_object w))
                (ExternalPartitionSet.job_name (_external_partition_set (self_object w)))
                (ResolveInfo.instance (ResolveInfo.context graphene_info))
                None with
        | ExternalPartitionNamesData names =>
            (Ok names,
             mkWorld (mk (_external_repository_handle (self_object w))
                         (_external_partition_set (self_object w))
                         (Some names))
                     (S (external_fetches w)))
        | ExternalPartitionExecutionErrorData error =>
            (Err (DagsterUserCodeProcessError error),
             mkWorld (self_object w) (S (external_fetches w)))
        end
    end.
Proof.
  unfold _get_partition_names, mbind, Method_bind, read_partition_names,
    fetch_partition_names, write_partition_names, raise, mret, Method_ret.
  destruct (_partition_names (self_object w)); [reflexivity|].
  destruct (ResolveInfo.get_external_partition_names _ _ _ _ _); reflexivity.
Qed.

(** C5.  Two calls in a row on the same partition-set object with the same
    request context, whatever the object has memoized before, return the
    same thing: the same ordered sequence of names, or the same error. *)
Theorem _get_partition_names_deterministic (graphene_info : ResolveInfo.t) (w : World) :
  let first := _get_partition_names graphene_info w in
  let second := _get_partition_names graphene_info first.2 in
  second.1 = first.1.
Proof.
  intros first second. subst second first.
  rewrite (_get_partition_names_cases graphene_info (_get_partition_names graphene_info w).2).
  rewrite (_get_partition_names_cases graphene_info w).
  destruct (_partition_names (self_object w)) as [names|] eqn:Hmemo; cbn [fst snd].
  - rewrite Hmemo. reflexivity.
  - destruct (ResolveInfo.get_external_partition_names _ _ _ _ _) as [names|error] eqn:Hfetch;
      cbn [fst snd self_object _partition_names _external_repository_handle
           _external_partition_set].
    + reflexivity.
    + rewrite Hmemo, Hfetch. reflexivity.
Qed.

(** C6, as amended.  The method takes no snapshot token and memoizes on the
    object: once a call has returned names, every later call on the object,
    under any request context, returns these names without asking the
    external source and without changing the object; a call asks the
    external source at most once. *)
Theorem _get_partition_names_memoizes
    (graphene_info later_info : ResolveInfo.t) (w w1 : World) (names : list string) :
  _get_partition_names graphene_info w = (Ok names, w1) →
  _get_partition_names later_info w1 = (Ok names, w1)
  ∧ _partition_names (self_object w1) = Some names
  ∧ (external_fetches w1 ≤ S (external_fetches w))%nat.
Proof.
  rewrite (_get_partition_names_cases graphene_info w).
  rewrite (_get_partition_names_cases later_info w1).
  destruct (_partition_names (self_object w)) as [memo|] eqn:Hmemo.
  - intros [= -> <-]. rewrite Hmemo. split_and!; [reflexivity | reflexivity | lia].
  - destruct (ResolveInfo.get_external_partition_names _ _ _ _ _) as [fetched|error];
      [|discriminate].
    intros [= -> <-]. simpl. split_and!; [reflexivity | reflexivity | lia].
Qed.

End PartitionNames.

Lemma _get_partition_names_memoizes_witness :
  GraphenePartitionSet._get_partition_names (Sample.info ["a"] []) Sample.fresh_world
  = (Ok ["a"],
     GraphenePartitionSet.mkWorld
       (GraphenePartitionSet.mk Sample.handle Sample.partition_set (Some ["a"])) 1)
  ∧ GraphenePartitionSet._get_partition_names (Sample.info ["a"; "b"] [])
      (GraphenePartitionSet.mkWorld
         (GraphenePartitionSet.mk Sample.handle Sample.partition_set (Some ["a"])) 1)
    = (Ok ["a"],
       GraphenePartitionSet.mkWorld
         (GraphenePartitionSet.mk Sample.handle Sample.partition_set (Some ["a"])) 1).
Proof.
  split; [reflexivity|].
  apply (_get_partition_names_memoizes
           (Sample.info ["a"] []) (Sample.info ["a"; "b"] []) Sample.fresh_world).
  reflexivity.
Defined.

(** C6, as stated, fails: after the external source has changed from the
    names a to the names a, b, the second call on the object still returns
    a, and it has not asked the source (the count of fetches stays 1). *)
Lemma _get_partition_names_no_refetch_counterexample :
  let first :=
    GraphenePartitionSet._get_partition_names (Sample.info ["a"] []) Sample.fresh_world in
  let second :=
    GraphenePartitionSet._get_partition_names (Sample.info ["a"; "b"] []) first.2 in
  ResolveInfo.get_external_partition_names
    (ResolveInfo.context (Sample.info ["a"; "b"] []))
    Sample.handle "letters" (mkDagsterInstance (λ _, [])) None
  = ExternalPartitionNamesData ["a"; "b"]
  ∧ second.1 = Ok ["a"]
  ∧ GraphenePartitionSet.external_fetches first.2 = 1
  ∧ GraphenePartitionSet.external_fetches second.2 = 1.
Proof. vm_compute. repeat split. Qed.

(** ** Backfills of a partition set *)

Section Backfills.
Import GraphenePartitionSet.

Lemma slice_to_sublist {A} (xs : list A) (stop : option Z) :
  slice_to xs stop `sublist_of` xs.
Proof.
  unfold slice_to. destruct stop as [n|]; [|reflexivity].
  case_bool_decide; apply sublist_take.
Qed.

Lemma slice_to_length {A} (xs : list A) (n : Z) :
  (0 ≤ n)%Z → (Z.of_nat (length (slice_to xs (Some n))) ≤ n)%Z.
Proof.
  intros Hn. unfold slice_to. rewrite bool_decide_eq_true_2 by done.
  rewrite length_take. lia.
Qed.

Lemma backfill_matches_spec (self : t) (backfill : PartitionBackfill) :
  backfill_matches self backfill = true
  ↔ ∃ origin,
      partition_set_origin backfill = Some origin
      ∧ partition_set_name origin
        = ExternalPartitionSet.name (_external_partition_set self)
      ∧ origin_repository_name (repository_origin origin)
        = repository_name (_external_repository_handle self).
Proof.
  unfold backfill_matches. destruct (partition_set_origin backfill) as [origin|].
  - rewrite andb_true_iff, !bool_decide_eq_true. split.
    + intros [Hset Hrepo]. by exists origin.
    + intros (origin' & [= <-] & Hset & Hrepo). done.
  - split; [discriminate|]. intros (origin & Hsome & _). discriminate.
Qed.

(** C10, as amended.  The backfills resolved for a partition set are stored
    backfills whose partition-set origin exists and names this partition set
    and this repository; they stand in the store's order; they are a prefix
    of all the stored backfills that match, all of them when no limit is
    given; and they number at most [limit] when a limit that is not negative
    is given. *)
Theorem resolve_backfills_matching_in_order
    (self : t) (graphene_info : ResolveInfo.t) (cursor : option string) (limit : option Z) :
  let stored :=
    get_backfills (ResolveInfo.instance (ResolveInfo.context graphene_info)) cursor in
  let resolved := backfill_of <$> resolve_backfills self graphene_info cursor limit in
  (∀ backfill, backfill ∈ resolved →
     backfill ∈ stored
     ∧ ∃ origin,
         partition_set_origin backfill = Some origin
         ∧ partition_set_name origin
           = ExternalPartitionSet.name (_external_partition_set self)
         ∧ origin_repository_name (repository_origin origin)
           = repository_name (_external_repository_handle self))
  ∧ resolved `sublist_of` stored
  ∧ resolved `prefix_of` filter (λ b, backfill_matches self b = true) stored
  ∧ (limit = None → resolved = filter (λ b, backfill_matches self b = true) stored)
  ∧ (∀ n, limit = Some n → (0 ≤ n)%Z →
       (Z.of_nat (length (resolve_backfills self graphene_info cursor limit)) ≤ n)%Z).
Proof.
  intros stored resolved.
  set (matching := filter (λ b, backfill_matches self b = true) stored).
  assert (Hresolved : resolved = slice_to matching limit).
  { subst resolved. unfold resolve_backfills. fold stored. fold matching.
    rewrite <- list_fmap_compose. apply list_fmap_id. }
  assert (Hsub : slice_to matching limit `sublist_of` matching) by apply slice_to_sublist.
  split_and!.
  - intros backfill Hin. rewrite Hresolved in Hin.
    assert (Hm : backfill ∈ matching) by (eapply elem_of_sublist; eassumption).
    apply list_elem_of_filter in Hm as [Hmatch Hstored].
    split; [exact Hstored|]. by apply backfill_matches_spec.
  - rewrite Hresolved. etransitivity; [exact Hsub|]. apply sublist_filter.
  - rewrite Hresolved. unfold slice_to. destruct limit as [n|]; [|reflexivity].
    case_bool_decide; apply prefix_take.
  - intros ->. exact Hresolved.
  - intros n -> Hn. unfold resolve_backfills. fold stored. fold matching.
    rewrite length_fmap. by apply slice_to_length.
Qed.

End Backfills.

Lemma resolve_backfills_matching_in_order_witness :
  let stored :=
    [ Sample.backfill_1; Sample.backfill_other_set; Sample.backfill_no_origin;
      Sample.backfill_2 ] in
  GraphenePartitionSet.resolve_backfills
    (GraphenePartitionSet.init Sample.handle Sample.partition_set)
    (Sample.info [] stored) None (Some 1%Z)
  = [ mkGraphenePartitionBackfill Sample.backfill_1 ]
  ∧ (Z.of_nat
       (length
          (GraphenePartitionSet.resolve_backfills
             (GraphenePartitionSet.init Sample.handle Sample.partition_set)
             (Sample.info [] stored) None (Some 1%Z))) ≤ 1)%Z.
Proof.
  intros stored. split; [reflexivity|].
  apply (resolve_backfills_matching_in_order
           (GraphenePartitionSet.init Sample.handle Sample.partition_set)
           (Sample.info [] stored) None (Some 1%Z)); [reflexivity | lia].
Defined.

(** C10, as stated, fails for a negative limit: with two matching backfills
    stored and the limit -1, the slice drops the last one and one backfill is
    returned, which is more than the limit. *)
Lemma resolve_backfills_negative_limit_counterexample :
  let resolved :=
    GraphenePartitionSet.resolve_backfills
      (GraphenePartitionSet.init Sample.handle Sample.partition_set)
      (Sample.info [] [ Sample.backfill_1; Sample.backfill_2 ]) None (Some (-1)%Z) in
  resolved = [ mkGraphenePartitionBackfill Sample.backfill_1 ]
  ∧ (-1 < Z.of_nat (length resolved))%Z.
Proof. vm_compute. split; reflexivity. Qed.

(** ** Dynamic-partition mutations *)

Section DynamicPartitions.
Import DynamicPartitionRegistry.

Lemma filter_nonempty {A} (P : A → Prop) `{∀ x, Decision (P x)} (xs : list A) (x : A) :
  x ∈ xs → P x → filter P xs ≠ [].
Proof.
  intros Hin HP Hnil.
  assert (Hx : x ∈ filter P xs) by (apply list_elem_of_filter; done).
  rewrite Hnil in Hx. by apply elem_of_nil in Hx.
Qed.

(** C3.  Adding keys of which one is already present fails with
    [DuplicateKeyError] for this definition, naming exactly the keys of the
    call that are already present, in the order of the call; nothing is
    committed.  The result union of the add mutation has an error type of
    its own for this failure, [GrapheneDuplicateDynamicPartitionError],
    next to the generic [GraphenePythonError]. *)
Theorem addKeys_duplicate_is_error
    (st : DynamicPartitionsState) (defName : string) (keys : list string) (k : string) :
  k ∈ keys → k ∈ listKeys st defName →
  (∃ present,
     addKeys st defName keys = Err (DuplicateKeyError defName present)
     ∧ present ≠ []
     ∧ present `sublist_of` keys
     ∧ ∀ k', k' ∈ present ↔ k' ∈ keys ∧ k' ∈ listKeys st defName)
  ∧ dedicated_failures GrapheneAddDynamicPartitionResult
    = [ GrapheneDuplicateDynamicPartitionError ]
  ∧ GrapheneDuplicateDynamicPartitionError ∈ union_types GrapheneAddDynamicPartitionResult
  ∧ variant_role GrapheneDuplicateDynamicPartitionError ≠ GenericFailure.
Proof.
  intros Hkeys Hpresent. split; [|split_and!; [reflexivity | | discriminate]].
  - exists (filter (λ k', k' ∈ listKeys st defName) keys).
    pose proof (filter_nonempty (λ k', k' ∈ listKeys st defName) keys k Hkeys Hpresent)
      as Hne.
    split_and!.
    + unfold addKeys.
      destruct (filter (λ k', k' ∈ listKeys st defName) keys); [done|reflexivity].
    + exact Hne.
    + apply sublist_filter.
    + intros k'. rewrite list_elem_of_filter. tauto.
  - unfold GrapheneAddDynamicPartitionResult. simpl.
    apply list_elem_of_In. simpl. tauto.
Qed.


End DynamicPartitions.

Lemma addKeys_duplicate_is_error_witness :
  DynamicPartitionRegistry.addKeys {[ "regions" := ["eu"; "us"] ]} "regions" ["asia"; "us"]
  = Err (DynamicPartitionRegistry.DuplicateKeyError "regions" ["us"])
  ∧ ∃ present,
      DynamicPartitionRegistry.addKeys
        {[ "regions" := ["eu"; "us"] ]} "regions" ["asia"; "us"]
      = Err (DynamicPartitionRegistry.DuplicateKeyError "regions" present)
      ∧ present ≠ [].
Proof.
  split; [reflexivity|].
  destruct (addKeys_duplicate_is_error
              {[ "regions" := ["eu"; "us"] ]} "regions" ["asia"; "us"] "us")
    as [(present & Hfails & Hne & _) _].
  - apply (bool_decide_unpack _). vm_compute. exact I.
  - apply (bool_decide_unpack _). vm_compute. exact I.
  - exists present. split; assumption.
Defined.


(* ===================================================================== *)
(** * Part III: further properties of the code                            *)
(* ===================================================================== *)

(** ** Comprehensions that may raise *)

(** A comprehension returns exactly when its element expression returns for
    every element, and then the results stand in the order of the elements. *)
Lemma comprehension_Ok_Forall2 {E A B} (f : A → result E B) (xs : list A) (ys : list B) :
  comprehension f xs = Ok ys ↔ Forall2 (λ x y, f x = Ok y) xs ys.
Proof.
  revert ys. induction xs as [|x xs IH]; intros ys; cbn [comprehension].
  - split.
    + intros [= <-]. constructor.
    + intros Hrel. inversion Hrel. reflexivity.
  - destruct (f x) as [y|e] eqn:Hfx; cbn.
    + destruct (comprehension f xs) as [ys'|e] eqn:Hrest; cbn.
      * split.
        -- intros [= <-]. constructor; [exact Hfx | by apply IH].
        -- intros Hrel. inversion Hrel as [|? y0 ? ys0 Hhead Htail]; subst.
           apply IH in Htail. congruence.
      * split; [discriminate|].
        intros Hrel. inversion Hrel as [|? y0 ? ys0 Hhead Htail]; subst.
        apply IH in Htail. discriminate.
    + split; [discriminate|].
      intros Hrel. inversion Hrel; subst. congruence.
Qed.

(** ** More on dimension descriptors *)

Section MoreDimensionTypes.
Context `{PartitionsDefinitionMethods}.

Lemma dynamic_name_iff_DYNAMIC (d : ExternalPartitionsDefinitionData)
    (ty : GraphenePartitionDefinitionType) :
  from_partition_def_data d = Ok ty →
  (is_Some (dynamic_name_of d) ↔ ty = DYNAMIC).
Proof.
  destruct d; simpl; intros [= <-]; split;
    first [done | intros [? [=]] | by eexists].
Qed.

Lemma dimension_of_multi_Ok d dim x :
  GraphenePartitionDefinition.dimension_of_multi d dim = Ok x →
  from_partition_def_data (external_partitions_def_data dim) = Ok (dimension_type x)
  ∧ dimension_name x = dim_name dim
  ∧ isPrimaryDimension x = bool_decide (dim_name dim = primary_dimension_name d)
  ∧ dynamicPartitionsDefinitionName x = dynamic_name_of (external_partitions_def_data dim).
Proof.
  unfold GraphenePartitionDefinition.dimension_of_multi.
  destruct (from_partition_def_data (external_partitions_def_data dim)) as [ty|e];
    cbn; [|discriminate].
  intros [= <-]. done.
Qed.

Lemma descriptor_names (p : string) (dims : list ExternalPartitionDimensionDefinition)
    (ds : list GrapheneDimensionDefinitionType) :
  Forall2 (λ dim x,
             dimension_name x = dim_name dim
             ∧ isPrimaryDimension x = bool_decide (dim_name dim = p))
    dims ds →
  (dimension_name <$> ds) = (dim_name <$> dims).
Proof.
  induction 1 as [|dim x dims' ds' [Hname _] _ IH]; [reflexivity|].
  rewrite !fmap_cons. by f_equal.
Qed.

(** X: the name of a dynamic partitions definition is exposed exactly on the
    objects of type DYNAMIC: on the definition object that [__init__]
    builds, and on every dimension descriptor the resolver returns. *)
Theorem dynamic_name_exactly_on_DYNAMIC (d : ExternalPartitionsDefinitionData) :
  (∀ o, GraphenePartitionDefinition.init d = Ok o →
        (is_Some (GraphenePartitionDefinition.name o)
         ↔ GraphenePartitionDefinition.type o = DYNAMIC))
  ∧ (∀ ds, GraphenePartitionDefinition.resolve_dimensionTypes d = Ok ds →
           Forall (λ x, is_Some (dynamicPartitionsDefinitionName x)
                        ↔ dimension_type x = DYNAMIC) ds).
Proof.
  split.
  - intros o. unfold GraphenePartitionDefinition.init.
    destruct (from_partition_def_data d) as [ty|e] eqn:Hty; cbn; [|discriminate].
    intros [= <-]. cbn. by apply dynamic_name_iff_DYNAMIC.
  - intros ds Hds.
    assert (Hsingle : ∀ ty,
              from_partition_def_data d = Ok ty →
              Forall (λ x, is_Some (dynamicPartitionsDefinitionName x)
                           ↔ dimension_type x = DYNAMIC)
                [ mkDimensionType "default" "" ty true (dynamic_name_of d) ]).
    { intros ty Hty. constructor; [|constructor]. cbn.
      by apply dynamic_name_iff_DYNAMIC. }
    destruct d as [keys|start cron tz end_|dims|name|cls];
      try (cbn in Hds; injection Hds as <-; by apply Hsingle);
      try (cbn in Hds; discriminate Hds).
    cbn [GraphenePartitionDefinition.resolve_dimensionTypes] in Hds.
    apply comprehension_Ok_Forall2 in Hds.
    induction Hds as [|dim x dims' ds' Hx _ IH]; constructor; [|exact IH].
    apply dimension_of_multi_Ok in Hx as (Hty & _ & _ & ->).
    by apply dynamic_name_iff_DYNAMIC.
Qed.

Lemma from_partition_def_data_Ok_known (d : ExternalPartitionsDefinitionData)
    (ty : GraphenePartitionDefinitionType) :
  from_partition_def_data d = Ok ty → is_known_variant d = true.
Proof. destruct d; simpl; congruence. Qed.

(** X: the resolver returns for a multi-partitions definition only when
    every dimension is an instance of one of the four subclasses, and then
    with one descriptor per dimension, each of the type its dimension
    classifies as. *)
Theorem resolve_dimensionTypes_returns_only_known
    (dims : list ExternalPartitionDimensionDefinition)
    (ds : list GrapheneDimensionDefinitionType) :
  GraphenePartitionDefinition.resolve_dimensionTypes
    (ExternalMultiPartitionsDefinitionData dims) = Ok ds →
  length ds = length dims
  ∧ Forall (λ dim, is_known_variant (external_partitions_def_data dim) = true) dims
  ∧ Forall2 (λ dim x,
               from_partition_def_data (external_partitions_def_data dim)
               = Ok (dimension_type x))
      dims ds.
Proof.
  cbn [GraphenePartitionDefinition.resolve_dimensionTypes].
  intros Hds. apply comprehension_Ok_Forall2 in Hds.
  assert (Htypes : Forall2 (λ dim x,
                      from_partition_def_data (external_partitions_def_data dim)
                      = Ok (dimension_type x)) dims ds).
  { eapply Forall2_impl; [exact Hds|]. intros dim x Hx.
    by apply dimension_of_multi_Ok in Hx as (Hty & _). }
  split; [symmetry; exact (Forall2_length _ _ _ Htypes)|]. split; [|exact Htypes].
  clear Hds. induction Htypes as [|dim x dims' ds' Hty _ IH]; constructor; [|exact IH].
  exact (from_partition_def_data_Ok_known _ _ Hty).
Qed.

(** X: whenever the resolver returns for a multi-partitions definition, the
    descriptors carry the dimensions' names in order, and as many of them
    are marked primary as there are dimensions named like the primary
    dimension: none when no dimension has that name. *)
Theorem resolve_dimensionTypes_primary_count
    (dims : list ExternalPartitionDimensionDefinition)
    (ds : list GrapheneDimensionDefinitionType) :
  GraphenePartitionDefinition.resolve_dimensionTypes
    (ExternalMultiPartitionsDefinitionData dims) = Ok ds →
  (dimension_name <$> ds) = (dim_name <$> dims)
  ∧ length (GraphenePartitionDefinition.primary_dimensions ds)
    = length (filter
                (λ n, n = primary_dimension_name (ExternalMultiPartitionsDefinitionData dims))
                (dim_name <$> dims))
  ∧ (primary_dimension_name (ExternalMultiPartitionsDefinitionData dims)
       ∉ (dim_name <$> dims) →
     GraphenePartitionDefinition.primary_dimensions ds = []).
Proof.
  cbn [GraphenePartitionDefinition.resolve_dimensionTypes].
  intros Hds. apply comprehension_Ok_Forall2 in Hds.
  set (d := ExternalMultiPartitionsDefinitionData dims) in *.
  assert (Hrel : Forall2 (λ dim x,
                   dimension_name x = dim_name dim
                   ∧ isPrimaryDimension x
                     = bool_decide (dim_name dim = primary_dimension_name d)) dims ds).
  { eapply Forall2_impl; [exact Hds|]. intros dim x Hx.
    apply dimension_of_multi_Ok in Hx as (_ & Hname & Hflag & _). done. }
  assert (Hcount := primary_dimensions_length _ _ _ Hrel).
  split_and!.
  - exact (descriptor_names _ _ _ Hrel).
  - exact Hcount.
  - intros Hnotin. apply length_zero_iff_nil. rewrite Hcount.
    apply length_zero_iff_nil.
    destruct (filter (λ n, n = primary_dimension_name d) (dim_name <$> dims))
      as [|n rest] eqn:Hfilter; [reflexivity|].
    assert (Hn : n ∈ filter (λ n, n = primary_dimension_name d) (dim_name <$> dims))
      by (rewrite Hfilter; left).
    apply list_elem_of_filter in Hn as [-> Hn]. contradiction.
Qed.

(** X: for a definition that is not multi-partitioned, the definition
    object and its single dimension descriptor agree: the descriptor has the
    object's type and the object's dynamic definition name. *)
Theorem single_dimension_agrees_with_definition
    (d : ExternalPartitionsDefinitionData) (o : GraphenePartitionDefinition.t) :
  GraphenePartitionDefinition.init d = Ok o →
  GraphenePartitionDefinition.type o ≠ MULTIPARTITIONED →
  GraphenePartitionDefinition.resolve_dimensionTypes d
  = Ok [ mkDimensionType "default" ""
           (GraphenePartitionDefinition.type o) true
           (GraphenePartitionDefinition.name o) ].
Proof.
  unfold GraphenePartitionDefinition.init.
  destruct d as [keys|start cron tz end_|dims|name|cls]; cbn;
    try discriminate; intros [= <-]; cbn; congruence.
Qed.

End MoreDimensionTypes.

Lemma dynamic_name_exactly_on_DYNAMIC_witness :
  ∃ ds,
    GraphenePartitionDefinition.resolve_dimensionTypes
      (H := Sample.definition_methods) Sample.date_by_region = Ok ds
    ∧ Forall (λ x, is_Some (dynamicPartitionsDefinitionName x)
                   ↔ dimension_type x = DYNAMIC) ds.
Proof.
  eexists. split; [reflexivity|].
  apply (dynamic_name_exactly_on_DYNAMIC (H := Sample.definition_methods)
           Sample.date_by_region).
  reflexivity.
Defined.

Lemma resolve_dimensionTypes_primary_count_witness :
  ∃ ds,
    GraphenePartitionDefinition.resolve_dimensionTypes
      (H := Sample.definition_methods) Sample.date_by_region = Ok ds
    ∧ length (GraphenePartitionDefinition.primary_dimensions ds) = 1.
Proof.
  eexists. split; [reflexivity|].
  apply (resolve_dimensionTypes_primary_count (H := Sample.definition_methods)
           [ mkDimension "date"
               (ExternalTimeWindowPartitionsDefinitionData 0 "0 0 * * *" "UTC" None);
             mkDimension "region" (ExternalDynamicPartitionsDefinitionData "regions") ]).
  reflexivity.
Defined.

Lemma single_dimension_agrees_with_definition_witness :
  GraphenePartitionDefinition.resolve_dimensionTypes
    (H := Sample.definition_methods) (ExternalDynamicPartitionsDefinitionData "regions")
  = Ok [ mkDimensionType "default" "" DYNAMIC true (Some "regions") ].
Proof.
  apply (single_dimension_agrees_with_definition (H := Sample.definition_methods)
           (ExternalDynamicPartitionsDefinitionData "regions")
           (GraphenePartitionDefinition.mk
              (ExternalDynamicPartitionsDefinitionData "regions") "" DYNAMIC
              (Some "regions"))).
  - reflexivity.
  - discriminate.
Defined.

Lemma resolve_dimensionTypes_returns_only_known_witness :
  ∃ ds,
    GraphenePartitionDefinition.resolve_dimensionTypes
      (H := Sample.definition_methods) Sample.date_by_region = Ok ds
    ∧ length ds = 2.
Proof.
  eexists. split; [reflexivity|].
  apply (resolve_dimensionTypes_returns_only_known (H := Sample.definition_methods)
           [ mkDimension "date"
               (ExternalTimeWindowPartitionsDefinitionData 0 "0 0 * * *" "UTC" None);
             mkDimension "region" (ExternalDynamicPartitionsDefinitionData "regions") ]).
  reflexivity.
Defined.

(** ** More on the partition names of a partition set *)

Section MorePartitionNames.
Import GraphenePartitionSet.

(** X: what a call leaves behind.  It never touches the repository handle or
    the partition set of the object; it asks the external source once when
    the memo is empty and not at all otherwise; it never replaces names that
    are memoized; and afterwards the memo holds names exactly when the call
    returned them, so that a call that raised has memoized nothing. *)
Theorem _get_partition_names_frame (graphene_info : ResolveInfo.t) (w : World) :
  let out := _get_partition_names graphene_info w in
  _external_repository_handle (self_object out.2) = _external_repository_handle (self_object w)
  ∧ _external_partition_set (self_object out.2) = _external_partition_set (self_object w)
  ∧ external_fetches out.2
    = (external_fetches w
       + match _partition_names (self_object w) with Some _ => 0 | None => 1 end)%nat
  ∧ (∀ names, _partition_names (self_object w) = Some names →
              _partition_names (self_object out.2) = Some names)
  ∧ (∀ names, out.1 = Ok names ↔ _partition_names (self_object out.2) = Some names).
Proof.
  intros out. subst out. rewrite _get_partition_names_cases.
  destruct (_partition_names (self_object w)) as [memo|] eqn:Hmemo.
  - cbn [fst snd]. rewrite Hmemo.
    repeat split; try done; try lia; congruence.
  - destruct (ResolveInfo.get_external_partition_names _ _ _ _ _) as [fetched|error];
      cbn [fst snd self_object external_fetches _partition_names
           _external_repository_handle _external_partition_set];
      rewrite ?Hmemo; repeat split; try done; try lia; congruence.
Qed.

(** X: a failure of the user code is raised as [DagsterUserCodeProcessError]
    with the error of the user code and is not memoized: the object is left
    as it was, and the next call asks the external source again and returns
    (and memoizes) what it then answers. *)
Theorem _get_partition_names_failure_not_memoized
    (graphene_info retry_info : ResolveInfo.t) (w : World)
    (error : string) (names : list string) :
  _partition_names (self_object w) = None →
  ResolveInfo.get_external_partition_names (ResolveInfo.context graphene_info)
    (_external_repository_handle (self_object w))
    (ExternalPartitionSet.job_name (_external_partition_set (self_object w)))
    (ResolveInfo.instance (ResolveInfo.context graphene_info)) None
  = ExternalPartitionExecutionErrorData error →
  ResolveInfo.get_external_partition_names (ResolveInfo.context retry_info)
    (_external_repository_handle (self_object w))
    (ExternalPartitionSet.job_name (_external_partition_set (self_object w)))
    (ResolveInfo.instance (ResolveInfo.context retry_info)) None
  = ExternalPartitionNamesData names →
  let failed := _get_partition_names graphene_info w in
  let retried := _get_partition_names retry_info failed.2 in
  failed.1 = Err (DagsterUserCodeProcessError error)
  ∧ self_object failed.2 = self_object w
  ∧ retried.1 = Ok names
  ∧ _partition_names (self_object retried.2) = Some names
  ∧ external_fetches retried.2 = S (S (external_fetches w)).
Proof.
  intros Hmemo Hfails Hretry failed retried. subst retried failed.
  rewrite (_get_partition_names_cases retry_info).
  rewrite (_get_partition_names_cases graphene_info w).
  rewrite Hmemo, Hfails. cbn [fst snd self_object external_fetches].
  rewrite Hmemo, Hretry. cbn. done.
Qed.

(** X: once a call has returned names, any number of later calls on the
    object, each under its own request context, all return these names and
    leave the object and the count of fetches as they are. *)
Theorem calls_after_success_are_stable
    (graphene_info : ResolveInfo.t) (later : list ResolveInfo.t)
    (w w1 : World) (names : list string) :
  _get_partition_names graphene_info w = (Ok names, w1) →
  calls later w1 = (replicate (length later) (Ok names), w1).
Proof.
  intros Hfirst.
  assert (Hmemo : _partition_names (self_object w1) = Some names).
  { pose proof (_get_partition_names_cases graphene_info w) as Hcases.
    rewrite Hfirst in Hcases.
    destruct (_partition_names (self_object w)) as [memo|] eqn:Hw.
    - injection Hcases as -> ->. exact Hw.
    - destruct (ResolveInfo.get_external_partition_names _ _ _ _ _);
        [|discriminate]. injection Hcases as -> ->. reflexivity. }
  clear Hfirst. induction later as [|info later IH]; [reflexivity|].
  cbn [calls length replicate].
  rewrite (_get_partition_names_cases info w1), Hmemo. cbn [fst snd].
  rewrite IH. reflexivity.
Qed.

(** X: the resolvers of a partition set share the memo.  After
    [resolve_partitionRuns] has returned, the resolvers of the partitions
    and of the partition statuses hand the same partition names to their
    helpers, under any later request context, and the object and the count
    of fetches stay as they are. *)
Theorem resolvers_share_partition_names
    (graphene_info later_info : ResolveInfo.t) (w w1 : World) (call : PartitionSetCall)
    (cursor : option string) (limit : option Z) (reverse : option bool) :
  resolve_partitionRuns graphene_info w = (Ok call, w1) →
  resolve_partitionsOrError later_info cursor limit reverse w1
  = (Ok (mkGetPartitionsCall
           (_external_repository_handle (self_object w1))
           (_external_partition_set (self_object w1))
           (call_partition_names call) cursor limit (default false reverse)),
     w1)
  ∧ resolve_partitionStatusesOrError later_info w1
    = (Ok (mkPartitionSetCall later_info (_external_partition_set (self_object w1))
             (call_partition_names call)),
       w1)
  ∧ call_partition_set call = _external_partition_set (self_object w1).
Proof.
  unfold resolve_partitionRuns, resolve_partitionsOrError,
    resolve_partitionStatusesOrError, read_self.
  unfold mbind, Method_bind, mret, Method_ret.
  rewrite !_get_partition_names_cases.
  destruct (_partition_names (self_object w)) as [memo|] eqn:Hw.
  - intros [= <- <-]. cbn. rewrite Hw. done.
  - destruct (ResolveInfo.get_external_partition_names _ _ _ _ _) as [fetched|error];
      [|discriminate].
    intros [= <- <-]. cbn. done.
Qed.

End MorePartitionNames.

Lemma _get_partition_names_failure_not_memoized_witness :
  let failed :=
    GraphenePartitionSet._get_partition_names (Sample.failing_info "boom")
      Sample.fresh_world in
  let retried :=
    GraphenePartitionSet._get_partition_names (Sample.info ["a"] []) failed.2 in
  failed.1 = Err (DagsterUserCodeProcessError "boom")
  ∧ retried.1 = Ok ["a"]
  ∧ GraphenePartitionSet.external_fetches retried.2 = 2.
Proof.
  destruct (_get_partition_names_failure_not_memoized
              (Sample.failing_info "boom") (Sample.info ["a"] []) Sample.fresh_world
              "boom" ["a"] eq_refl eq_refl eq_refl)
    as (Hfailed & _ & Hretried & _ & Hfetches).
  split_and!; assumption.
Defined.

Lemma calls_after_success_are_stable_witness :
  GraphenePartitionSet.calls
    [ Sample.info ["a"; "b"] []; Sample.failing_info "boom"; Sample.info [] [] ]
    (GraphenePartitionSet.mkWorld
       (GraphenePartitionSet.mk Sample.handle Sample.partition_set (Some ["a"])) 1)
  = ([ Ok ["a"]; Ok ["a"]; Ok ["a"] ],
     GraphenePartitionSet.mkWorld
       (GraphenePartitionSet.mk Sample.handle Sample.partition_set (Some ["a"])) 1).
Proof.
  apply (calls_after_success_are_stable (Sample.info ["a"] [])
           [ Sample.info ["a"; "b"] []; Sample.failing_info "boom"; Sample.info [] [] ]
           Sample.fresh_world).
  reflexivity.
Defined.

Lemma resolvers_share_partition_names_witness :
  GraphenePartitionSet.resolve_partitionStatusesOrError (Sample.info ["a"; "b"] [])
    (GraphenePartitionSet.mkWorld
       (GraphenePartitionSet.mk Sample.handle Sample.partition_set (Some ["a"])) 1)
  = (Ok (GraphenePartitionSet.mkPartitionSetCall
           (Sample.info ["a"; "b"] []) Sample.partition_set ["a"]),
     GraphenePartitionSet.mkWorld
       (GraphenePartitionSet.mk Sample.handle Sample.partition_set (Some ["a"])) 1).
Proof.
  apply (resolvers_share_partition_names (Sample.info ["a"] []) (Sample.info ["a"; "b"] [])
           Sample.fresh_world
           (GraphenePartitionSet.mkWorld
              (GraphenePartitionSet.mk Sample.handle Sample.partition_set (Some ["a"])) 1)
           (GraphenePartitionSet.mkPartitionSetCall
              (Sample.info ["a"] []) Sample.partition_set ["a"])
           None None None).
  reflexivity.
Defined.

(** ** More on the backfills of a partition set *)

Section MoreBackfills.
Import GraphenePartitionSet.

(** The backfills resolved are the slice of the matching stored ones. *)
Lemma resolved_backfills_are_slice
    (self : t) (graphene_info : ResolveInfo.t) (cursor : option string) (limit : option Z) :
  backfill_of <$> resolve_backfills self graphene_info cursor limit
  = slice_to
      (filter (λ b, backfill_matches self b = true)
         (get_backfills (ResolveInfo.instance (ResolveInfo.context graphene_info)) cursor))
      limit.
Proof.
  unfold resolve_backfills. rewrite <- list_fmap_compose. apply list_fmap_id.
Qed.

(** X: limits page consistently.  With limits 0 <= n <= m, what is
    resolved under the limit n is a prefix of what is resolved under m; the
    limit 0 resolves nothing; and a limit that is at least the number of
    matching stored backfills resolves the same as no limit. *)
Theorem resolve_backfills_limits_nest
    (self : t) (graphene_info : ResolveInfo.t) (cursor : option string) (n m : Z) :
  (0 ≤ n)%Z → (n ≤ m)%Z →
  resolve_backfills self graphene_info cursor (Some n)
    `prefix_of` resolve_backfills self graphene_info cursor (Some m)
  ∧ resolve_backfills self graphene_info cursor (Some 0%Z) = []
  ∧ (Z.of_nat (length (resolve_backfills self graphene_info cursor None)) ≤ m →
     resolve_backfills self graphene_info cursor (Some m)
     = resolve_backfills self graphene_info cursor None)%Z.
Proof.
  intros Hn Hnm. unfold resolve_backfills, slice_to.
  set (matching := filter _ _).
  rewrite !bool_decide_eq_true_2 by lia. split_and!.
  - replace (Z.to_nat n) with (Z.to_nat n `min` Z.to_nat m)%nat by lia.
    rewrite <- take_take, fmap_take. apply prefix_take.
  - reflexivity.
  - rewrite length_fmap. intros Hall. f_equal. apply take_ge. lia.
Qed.

(** X: a negative limit -k resolves all matching stored backfills but the
    last k of them, and nothing when there are no more than k. *)
Theorem resolve_backfills_negative_limit
    (self : t) (graphene_info : ResolveInfo.t) (cursor : option string) (k : nat) :
  (0 < k)%nat →
  let all := resolve_backfills self graphene_info cursor None in
  let resolved := resolve_backfills self graphene_info cursor (Some (- Z.of_nat k)%Z) in
  resolved = take (length all - k) all
  ∧ length resolved = (length all - k)%nat
  ∧ ((length all ≤ k)%nat → resolved = []).
Proof.
  intros Hk all resolved. subst all resolved.
  unfold resolve_backfills, slice_to.
  set (matching := filter _ _).
  rewrite bool_decide_eq_false_2 by lia.
  rewrite length_fmap, fmap_take.
  replace (Z.to_nat (- - Z.of_nat k)) with k by lia.
  split_and!.
  - reflexivity.
  - rewrite length_take, length_fmap. lia.
  - intros Hle. replace (length matching - k)%nat with 0%nat by lia. reflexivity.
Qed.

(** X: a stored backfill belongs to one partition set of one repository:
    two partition-set objects that differ in the name of the partition set
    or in the name of the repository never resolve the same backfill,
    whatever the cursors and limits. *)
Theorem resolve_backfills_disjoint
    (self other : t) (graphene_info : ResolveInfo.t)
    (cursor cursor' : option string) (limit limit' : option Z)
    (g : GraphenePartitionBackfill) :
  ExternalPartitionSet.name (_external_partition_set self)
    ≠ ExternalPartitionSet.name (_external_partition_set other)
  ∨ repository_name (_external_repository_handle self)
    ≠ repository_name (_external_repository_handle other) →
  g ∈ resolve_backfills self graphene_info cursor limit →
  g ∉ resolve_backfills other graphene_info cursor' limit'.
Proof.
  intros Hdiffer Hself Hother.
  assert (Hmatch : ∀ (s : t) c l,
            g ∈ resolve_backfills s graphene_info c l →
            backfill_matches s (backfill_of g) = true).
  { intros s c l Hin.
    assert (Hb : backfill_of g ∈ backfill_of <$> resolve_backfills s graphene_info c l)
      by (by apply list_elem_of_fmap_2).
    rewrite resolved_backfills_are_slice in Hb.
    eapply elem_of_sublist in Hb; [|apply slice_to_sublist].
    by apply list_elem_of_filter in Hb as [Hb _]. }
  apply Hmatch, backfill_matches_spec in Hself as (origin & Horigin & Hset & Hrepo).
  apply Hmatch, backfill_matches_spec in Hother as (origin' & Horigin' & Hset' & Hrepo').
  rewrite Horigin in Horigin'. injection Horigin' as <-.
  destruct Hdiffer as [Hne|Hne]; apply Hne; congruence.
Qed.

End MoreBackfills.

Lemma resolve_backfills_limits_nest_witness :
  let stored :=
    [ Sample.backfill_1; Sample.backfill_other_set; Sample.backfill_2 ] in
  let self := GraphenePartitionSet.init Sample.handle Sample.partition_set in
  GraphenePartitionSet.resolve_backfills self (Sample.info [] stored) None (Some 1%Z)
    `prefix_of`
    GraphenePartitionSet.resolve_backfills self (Sample.info [] stored) None (Some 5%Z)
  ∧ GraphenePartitionSet.resolve_backfills self (Sample.info [] stored) None (Some 5%Z)
    = [ mkGraphenePartitionBackfill Sample.backfill_1;
        mkGraphenePartitionBackfill Sample.backfill_2 ].
Proof.
  intros stored self. split; [|reflexivity].
  apply (resolve_backfills_limits_nest self (Sample.info [] stored) None 1 5); lia.
Defined.

Lemma resolve_backfills_negative_limit_witness :
  let stored :=
    [ Sample.backfill_1; Sample.backfill_other_set; Sample.backfill_2 ] in
  let self := GraphenePartitionSet.init Sample.handle Sample.partition_set in
  length (GraphenePartitionSet.resolve_backfills self (Sample.info [] stored) None
            (Some (- Z.of_nat 1)%Z))
  = 1%nat.
Proof.
  intros stored self.
  destruct (resolve_backfills_negative_limit self (Sample.info [] stored) None 1)
    as (_ & Hlength & _); [lia|].
  exact Hlength.
Defined.

Lemma resolve_backfills_disjoint_witness :
  let stored :=
    [ Sample.backfill_1; Sample.backfill_other_set; Sample.backfill_2 ] in
  (mkGraphenePartitionBackfill Sample.backfill_other_set
     ∉ GraphenePartitionSet.resolve_backfills
         (GraphenePartitionSet.init Sample.handle Sample.partition_set)
         (Sample.info [] stored) None None)
  ∧ (mkGraphenePartitionBackfill Sample.backfill_other_set
       ∈ GraphenePartitionSet.resolve_backfills
           (GraphenePartitionSet.init Sample.handle Sample.other_partition_set)
           (Sample.info [] stored) None None).
Proof.
  intros stored.
  assert (Hin : mkGraphenePartitionBackfill Sample.backfill_other_set
                ∈ GraphenePartitionSet.resolve_backfills
                    (GraphenePartitionSet.init Sample.handle Sample.other_partition_set)
                    (Sample.info [] stored) None None).
  { change (GraphenePartitionSet.resolve_backfills _ _ _ _)
      with [ mkGraphenePartitionBackfill Sample.backfill_other_set ].
    left. }
  split; [|exact Hin].
  apply (resolve_backfills_disjoint
           (GraphenePartitionSet.init Sample.handle Sample.other_partition_set)
           (GraphenePartitionSet.init Sample.handle Sample.partition_set)
           (Sample.info [] stored) None None None None); [|exact Hin].
  left. discriminate.
Defined.

(** ** More on the runs of a partition *)

Section MorePartitionRuns.
Context `{RunStorageImports} `{!RunStorageImportsLaws}.

(** X: what the caller says about the two partition tags has no effect.
    Two caller filters whose selectors agree on the run ids, the job name,
    the statuses and every tag other than the two partition tags are sent
    to the ledger as the same filter. *)
Theorem resolve_runs_ignores_caller_partition_tags
    (self : GraphenePartition.t) (filter filter' : GrapheneRunsFilter)
    (cursor : option string) (limit : option Z) :
  RunsFilter.run_ids (to_selector filter) = RunsFilter.run_ids (to_selector filter') →
  RunsFilter.job_name (to_selector filter) = RunsFilter.job_name (to_selector filter') →
  RunsFilter.statuses (to_selector filter) = RunsFilter.statuses (to_selector filter') →
  (∀ k, k ≠ PARTITION_SET_TAG → k ≠ PARTITION_NAME_TAG →
        RunsFilter.tags (to_selector filter) !! k
        = RunsFilter.tags (to_selector filter') !! k) →
  GraphenePartition.resolve_runs self (Some filter) cursor limit
  = GraphenePartition.resolve_runs self (Some filter') cursor limit.
Proof.
  intros Hids Hjob Hstatuses Htags.
  unfold GraphenePartition.resolve_runs, GraphenePartition.runs_filter_of.
  rewrite Hids, Hjob, Hstatuses. do 2 f_equal.
  apply map_eq. intros k. rewrite !merge_dicts_lookup.
  destruct (GraphenePartition.partition_tags self !! k) as [v|] eqn:Hk; [reflexivity|].
  apply Htags; intros ->.
  - by rewrite partition_tags_lookup_set in Hk.
  - by rewrite partition_tags_lookup_name in Hk.
Qed.

(** X: the tags sent for a caller's filter are the caller's tags and the two
    partition tags, and no others. *)
Theorem resolve_runs_sent_tag_keys
    (self : GraphenePartition.t) (filter : GrapheneRunsFilter)
    (cursor : option string) (limit : option Z) :
  dom (RunsFilter.tags
         (call_runs_filter (GraphenePartition.resolve_runs self (Some filter) cursor limit)))
  = dom (RunsFilter.tags (to_selector filter))
    ∪ {[ PARTITION_SET_TAG; PARTITION_NAME_TAG ]}.
Proof.
  cbn. apply set_eq. intros k.
  rewrite elem_of_union, !elem_of_dom, merge_dicts_lookup.
  rewrite elem_of_union, !elem_of_singleton.
  destruct (decide (k = PARTITION_SET_TAG)) as [->|Hset].
  { rewrite partition_tags_lookup_set. split; [intros _; right; by left | by eexists]. }
  destruct (decide (k = PARTITION_NAME_TAG)) as [->|Hname].
  { rewrite partition_tags_lookup_name. split; [intros _; right; by right | by eexists]. }
  rewrite partition_tags_lookup_other by done. tauto.
Qed.

End MorePartitionRuns.

Lemma resolve_runs_keeps_caller_criteria_witness :
  let caller :=
    RunsFilter.mk (Some ["r1"]) (Some "letters") (Some ["SUCCESS"])
      (<["dagster/partition" := "z"]> (<["team" := "data"]> ∅)) in
  let self := GraphenePartition.mk Sample.handle Sample.partition_set "b" in
  let sent :=
    call_runs_filter
      (GraphenePartition.resolve_runs (H := Sample.imports) self (Some caller) None None) in
  RunsFilter.run_ids sent = Some ["r1"]
  ∧ RunsFilter.job_name sent = Some "letters"
  ∧ RunsFilter.statuses sent = Some ["SUCCESS"]
  ∧ RunsFilter.tags sent !! "team" = Some "data".
Proof.
  intros caller self sent.
  destruct (@resolve_runs_keeps_caller_criteria Sample.imports sample_imports_laws
              self caller None None) as (Hids & Hjob & Hstatuses & Htags).
  split_and!; [exact Hids | exact Hjob | exact Hstatuses |].
  etransitivity; [apply (Htags "team"); cbn; discriminate | reflexivity].
Defined.

Lemma resolve_runs_ignores_caller_partition_tags_witness :
  let self := GraphenePartition.mk Sample.handle Sample.partition_set "b" in
  GraphenePartition.resolve_runs (H := Sample.imports) self
    (Some (RunsFilter.mk None None None
             (<["dagster/partition" := "z"]> (<["team" := "data"]> ∅))))
    None None
  = GraphenePartition.resolve_runs (H := Sample.imports) self
      (Some (RunsFilter.mk None None None (<["team" := "data"]> ∅)))
      None None.
Proof.
  intros self.
  apply (@resolve_runs_ignores_caller_partition_tags Sample.imports sample_imports_laws);
    try reflexivity.
  intros k Hset Hname. cbn. by rewrite lookup_insert_ne by done.
Defined.

Lemma resolve_runs_sent_tag_keys_witness :
  dom (RunsFilter.tags
         (call_runs_filter
            (GraphenePartition.resolve_runs (H := Sample.imports)
               (GraphenePartition.mk Sample.handle Sample.partition_set "b")
               (Some (RunsFilter.mk None None None (<["team" := "data"]> ∅)))
               None None)))
  = dom (<["team" := "data"]> (∅ : gmap string string))
    ∪ {[ "dagster/partition_set"; "dagster/partition" ]}.
Proof.
  exact (@resolve_runs_sent_tag_keys Sample.imports sample_imports_laws
           (GraphenePartition.mk Sample.handle Sample.partition_set "b")
           (RunsFilter.mk None None None (<["team" := "data"]> ∅)) None None).
Defined.

(** ** The requirements of dagster-notdiamond *)

Section Requirements.
Import NotDiamondSetup.

Lemma append_inj_r (prefix a b : string) : prefix +:+ a = prefix +:+ b → a = b.
Proof. induction prefix as [|c prefix IH]; cbn; [done|]. intros [= Heq]. by apply IH. Qed.

(** X: a development install leaves dagster unpinned; any other version
    pins dagster to exactly that version, so that the requirement tells the
    version: two versions with the same requirements are the same version. *)
Theorem install_requires_pins_release (ver : string) :
  install_requires "1!0+dev" = [ "dagster"; "notdiamond" ]
  ∧ (ver ≠ "1!0+dev" →
     install_requires ver = [ "dagster==" +:+ ver; "notdiamond" ]
     ∧ install_requires ver ≠ install_requires "1!0+dev")
  ∧ (∀ ver', install_requires ver = install_requires ver' → ver = ver').
Proof.
  assert (Hrelease : ∀ v, v ≠ "1!0+dev" →
            install_requires v = [ "dagster==" +:+ v; "notdiamond" ]).
  { intros v Hv. unfold install_requires, pin.
    by rewrite bool_decide_eq_false_2. }
  split_and!.
  - reflexivity.
  - intros Hver. split; [by apply Hrelease|].
    rewrite Hrelease by done. discriminate.
  - intros ver' Heq.
    destruct (decide (ver = "1!0+dev")) as [->|Hver];
      destruct (decide (ver' = "1!0+dev")) as [->|Hver']; [done| | |].
    + rewrite (Hrelease ver') in Heq by done. discriminate.
    + rewrite (Hrelease ver) in Heq by done. discriminate.
    + rewrite (Hrelease ver), (Hrelease ver') in Heq by done.
      assert (Hhead : "dagster==" +:+ ver = "dagster==" +:+ ver') by congruence.
      exact (append_inj_r "dagster==" ver ver' Hhead).
Qed.

End Requirements.

Lemma install_requires_pins_release_witness :
  NotDiamondSetup.install_requires "0.1.0" = [ "dagster==0.1.0"; "notdiamond" ].
Proof.
  apply (install_requires_pins_release "0.1.0"). discriminate.
Defined.
